(** * openclaw-advanced-voice: the plugin's call tool, its poll loop and
      its start-up, with the voice engine's authentication gate.

    The JavaScript of [index.js] (three revisions of the plugin) is embedded
    as Rocq functions over a small model of JavaScript values, of [fetch]
    and of the clock.  The voice engine itself (the Python server started by
    [watchdog.py]) is not part of the JavaScript sources; the two components
    of it that are needed are modelled from the specification and marked so. *)

From Stdlib Require Import ZArith String Ascii List Bool Lia DecimalString.
From stdpp Require Import base option list strings gmap.

Set Warnings "-register-all".

Local Open Scope string_scope.
Local Open Scope Z_scope.

(** ** JavaScript values *)

Module Js.

(** JSON documents plus [undefined].  Numbers are kept as integers: the
    code only tests them for truthiness or prints them into a URL. *)
Inductive value : Type :=
| Undefined
| Null
| Bool (b : bool)
| Num (n : Z)
| Str (s : string)
| Arr (items : list value)
| Obj (props : list (string * value)).

(** ToBoolean *)
Definition truthy (v : value) : bool :=
  match v with
  | Undefined | Null => false
  | Bool b => b
  | Num n => negb (n =? 0)
  | Str s => negb (String.eqb s "")
  | Arr _ | Obj _ => true
  end.

(** [a || b] *)
Definition or (a b : value) : value := if truthy a then a else b.

(** [a ?? b] *)
Definition coalesce (a b : value) : value :=
  match a with
  | Undefined | Null => b
  | _ => a
  end.

(** [{ x = d } = obj]: the default of a destructuring pattern applies to
    [undefined] only. *)
Definition default (a d : value) : value :=
  match a with
  | Undefined => d
  | _ => a
  end.

(** Own property of an object literal or a parsed JSON object. *)
Fixpoint prop (k : string) (props : list (string * value)) : value :=
  match props with
  | [] => Undefined
  | (k', v) :: rest => if String.eqb k k' then v else prop k rest
  end.

(** [v.k]; [None] is the TypeError raised on [undefined] and [null].  The
    keys read by the plugin are not properties of strings, numbers,
    booleans or arrays. *)
Definition get (v : value) (k : string) : option value :=
  match v with
  | Undefined | Null => None
  | Obj props => Some (prop k props)
  | _ => Some Undefined
  end.

(** [v === 'lit'] *)
Definition is_str (v : value) (lit : string) : bool :=
  match v with
  | Str s => String.eqb s lit
  | _ => false
  end.

(** [`${v}`] *)
Fixpoint to_string (v : value) : string :=
  match v with
  | Undefined => "undefined"
  | Null => "null"
  | Bool true => "true"
  | Bool false => "false"
  | Num n => NilZero.string_of_int (Z.to_int n)
  | Str s => s
  | Arr items =>
      String.concat ","
        (List.map (fun i => match i with
                            | Undefined | Null => ""
                            | _ => to_string i
                            end) items)
  | Obj _ => "[object Object]"
  end.

(** [JSON.stringify] of an object literal, kept as the document it
    denotes: properties whose value is [undefined] are left out. *)
Definition JSON_stringify (props : list (string * value))
  : list (string * value) :=
  List.filter (fun kv => match snd kv with Undefined => false | _ => true end)
              props.

Inductive exn : Type :=
| Error (message : string)
| TypeError
| SyntaxError
| FetchError.

(** How an [async] function settles. *)
Inductive completion (A : Type) : Type :=
| Return (a : A)
| Throw (e : exn).
Arguments Return {A} a.
Arguments Throw {A} e.

End Js.

(** ** fetch *)

Module Http.

Record request : Type := {
  method : string;
  url : string;
  headers : list (string * Js.value);
  body : option (list (string * Js.value))
}.

(** What the code reads of a [Response]: [ok], [text()] and [json()]
    ([None] when the body is not JSON). *)
Record response : Type := {
  ok : bool;
  text : string;
  json : option Js.value
}.

Inductive fetched : Type :=
| Resolved (r : response)
| Rejected.

End Http.

(** [process.env.K || d] *)
Definition env_or (env : gmap string string) (k d : string) : string :=
  match env !! k with
  | Some s => if String.eqb s "" then d else s
  | None => d
  end.

(** [process.env.K] as a value *)
Definition env_get (env : gmap string string) (k : string) : Js.value :=
  match env !! k with
  | Some s => Js.Str s
  | None => Js.Undefined
  end.

(** ** The immediate-return tool (index.js 1.1.0, [register(api)]) *)

Module CallStarted.
(** The object the immediate-return tool resolves to. *)
Record t : Type := {
  success : Js.value;
  callSid : Js.value;
  to : Js.value;
  from : Js.value;
  status : Js.value
}.
End CallStarted.

Module Register.

Record params : Type := {
  to : Js.value;
  message : Js.value;
  mode : Js.value
}.

Definition PORT (env : gmap string string) : string := env_or env "PORT" "8001".

Definition execute_request (env : gmap string string) (p : params)
  : Http.request :=
  let mode := Js.default (mode p) (Js.Str "outbound") in
  let apiKey := env_or env "VOICE_API_KEY" "" in
  {| Http.method := "POST";
     Http.url := "http://localhost:" ++ PORT env ++ "/call/number/"
                 ++ Js.to_string (to p);
     Http.headers := [("Content-Type", Js.Str "application/json");
                      ("X-Voice-Key", Js.Str apiKey)];
     Http.body := Some (Js.JSON_stringify
                          [("message", Js.or (message p) (Js.Str ""));
                           ("agent_timezone", Js.Str "America/Los_Angeles")])
  |}.

Definition execute_response (f : Http.fetched) : Js.completion CallStarted.t :=
  match f with
  | Http.Rejected => Js.Throw Js.FetchError
  | Http.Resolved response =>
      if negb (Http.ok response) then
        let error := Http.text response in
        Js.Throw (Js.Error ("Voice call failed: " ++ error))
      else
        match Http.json response with
        | None => Js.Throw Js.SyntaxError
        | Some result =>
            match Js.get result "call_sid", Js.get result "to",
                  Js.get result "from", Js.get result "status" with
            | Some call_sid, Some to, Some from, Some status =>
                Js.Return {| CallStarted.success := Js.Bool true;
                             CallStarted.callSid := call_sid;
                             CallStarted.to := to;
                             CallStarted.from := from;
                             CallStarted.status := status |}
            | _, _, _, _ => Js.Throw Js.TypeError
            end
        end
  end.

(** [execute(params)]: the request sent and how the call settles, against
    a server [net]. *)
Definition execute (env : gmap string string) (net : Http.request -> Http.fetched)
    (p : params) : Http.request * Js.completion CallStarted.t :=
  let rq := execute_request env p in
  (rq, execute_response (net rq)).

End Register.

(** ** The plugin factory [advancedVoicePlugin(config)] *)

Module Config.

Record twilio_t : Type := {
  accountSid : Js.value;
  authToken : Js.value;
  fromNumber : Js.value
}.

Record openai_t : Type := { openai_apiKey : Js.value }.

Record security_t : Type := {
  challenge : Js.value;
  apiKey : Js.value
}.

(** The [config] argument, read where the factory, [onLoad] and the tool
    read it.  [None] is an object property that is absent or null. *)
Record config : Type := {
  enabled : Js.value;
  port : Js.value;
  twilio : option twilio_t;
  openai : option openai_t;
  security : option security_t;
  config_apiKey : Js.value
}.

Record pluginConfig_t : Type := {
  pc_enabled : Js.value;
  pc_port : Js.value;
  pc_twilio : twilio_t;
  pc_openai : openai_t;
  pc_security : security_t
}.

(** [config.security?.challenge] *)
Definition security_challenge (s : option security_t) : Js.value :=
  match s with
  | Some s => challenge s
  | None => Js.Undefined
  end.

Definition pluginConfig (env : gmap string string) (c : config) : pluginConfig_t :=
  {| pc_enabled := Js.coalesce (enabled c) (Js.Bool true);
     pc_port := Js.coalesce (port c) (Js.Num 8001);
     pc_twilio := match twilio c with
                  | Some t => t
                  | None => {| accountSid := Js.Undefined;
                               authToken := Js.Undefined;
                               fromNumber := Js.Undefined |}
                  end;
     pc_openai := match openai c with
                  | Some o => o
                  | None => {| openai_apiKey := Js.Undefined |}
                  end;
     pc_security :=
       match security c with
       | Some s => s
       | None =>
           {| challenge := Js.or (security_challenge (security c))
                                 (env_get env "SECURITY_CHALLENGE");
              apiKey := Js.or (config_apiKey c) (env_get env "VOICE_API_KEY") |}
       end
  |}.

End Config.

(** ** The immediate-return tool of the factory (plugin 1.0.0, first revision) *)

Module PluginV0.

Record params : Type := {
  to : Js.value;
  message : Js.value;
  mode : Js.value
}.

Definition handler_request (pc : Config.pluginConfig_t) (p : params)
  : Http.request :=
  let mode := Js.default (mode p) (Js.Str "outbound") in
  {| Http.method := "POST";
     Http.url := "http://localhost:" ++ Js.to_string (Config.pc_port pc)
                 ++ "/call/number/" ++ Js.to_string (to p);
     Http.headers := [("Content-Type", Js.Str "application/json");
                      ("X-Voice-Key", Config.apiKey (Config.pc_security pc))];
     Http.body := Some (Js.JSON_stringify
                          [("message", Js.or (message p) (Js.Str ""));
                           ("agent_timezone", Js.Str "America/Los_Angeles")])
  |}.

Definition handler_response (f : Http.fetched) : Js.completion CallStarted.t :=
  match f with
  | Http.Rejected => Js.Throw Js.FetchError
  | Http.Resolved response =>
      if negb (Http.ok response) then
        let error := Http.text response in
        Js.Throw (Js.Error ("Voice call failed: " ++ error))
      else
        match Http.json response with
        | None => Js.Throw Js.SyntaxError
        | Some result =>
            match Js.get result "call_sid", Js.get result "to",
                  Js.get result "from", Js.get result "status" with
            | Some call_sid, Some to, Some from, Some status =>
                Js.Return {| CallStarted.success := Js.Bool true;
                             CallStarted.callSid := call_sid;
                             CallStarted.to := to;
                             CallStarted.from := from;
                             CallStarted.status := status |}
            | _, _, _, _ => Js.Throw Js.TypeError
            end
        end
  end.

Definition handler (pc : Config.pluginConfig_t)
    (net : Http.request -> Http.fetched) (p : params)
  : Http.request * Js.completion CallStarted.t :=
  let rq := handler_request pc p in
  (rq, handler_response (net rq)).

End PluginV0.

(** ** The mission plugin (plugin 1.0.0 with the poll loop and the adapter) *)

Module MissionResult.
(** The object the mission tool resolves to. *)
Record t : Type := {
  success : Js.value;
  callSid : Js.value;
  to : Js.value;
  outcome : Js.value;
  data : Js.value;
  next_steps : Js.value
}.
End MissionResult.

Module Plugin.

(** *** onLoad *)

Inductive effect : Type :=
| log_info (msg : string)
| log_error (msg : string)
| spawn (command : string) (args : list string) (env : gmap string Js.value).

(** Path of [watchdog.py] next to the plugin. *)
Definition watchdogPath (dirname : string) : string := dirname ++ "/watchdog.py".

Definition childEnv (pc : Config.pluginConfig_t) (env : gmap string string)
  : gmap string Js.value :=
  <["GATEWAY_TOKEN" := Js.Str (env_or env "OPENCLAW_TOKEN" "")]>
  (<["GATEWAY_URL" := Js.Str "http://127.0.0.1:18789/v1/chat/completions"]>
  (<["SECURITY_CHALLENGE" :=
       Js.or (Config.challenge (Config.pc_security pc)) (Js.Str "")]>
  (<["VOICE_API_KEY" :=
       Js.or (Config.apiKey (Config.pc_security pc)) (Js.Str "")]>
  (<["OPENAI_API_KEY" :=
       Js.or (Config.openai_apiKey (Config.pc_openai pc)) (Js.Str "")]>
  (<["TWILIO_NUMBER" :=
       Js.or (Config.fromNumber (Config.pc_twilio pc)) (Js.Str "")]>
  (<["TWILIO_AUTH_TOKEN" :=
       Js.or (Config.authToken (Config.pc_twilio pc)) (Js.Str "")]>
  (<["TWILIO_ACCOUNT_SID" :=
       Js.or (Config.accountSid (Config.pc_twilio pc)) (Js.Str "")]>
  (<["PORT" := Js.Str (Js.to_string (Config.pc_port pc))]>
  (Js.Str <$> env))))))))).

(** [onLoad(ctx)]: what it logs and whether it spawns the watchdog, which
    manages the tunnel and the voice server.  [existsSync] answers whether a
    path exists. *)
Definition onLoad (pc : Config.pluginConfig_t) (env : gmap string string)
    (dirname : string) (existsSync : string -> bool) : list effect :=
  log_info "[advanced-voice] Plugin loaded" ::
  if negb (Js.truthy (Config.pc_enabled pc)) then
    [log_info "[advanced-voice] Plugin disabled in config"]
  else
    if negb (existsSync (watchdogPath dirname)) then
      [log_error "[advanced-voice] watchdog.py not found"]
    else
      [log_info "[advanced-voice] Starting watchdog (tunnel + server manager)";
       spawn "python3" ["-u"; watchdogPath dirname] (childEnv pc env);
       log_info "[advanced-voice] Watchdog started (managing tunnel + server)"].

(** Does a run of [onLoad] start the watchdog, and with which environment? *)
Fixpoint spawned (es : list effect) : option (gmap string Js.value) :=
  match es with
  | [] => None
  | spawn _ _ env :: _ => Some env
  | _ :: rest => spawned rest
  end.

(** *** The mission tool [advanced_voice_call] *)

Record params : Type := {
  to : Js.value;
  mission : Js.value;
  role : Js.value
}.

Definition MAX_WAIT_MS : Z := 5 * 60 * 1000.
Definition POLL_MS : Z := 5000.

Definition initiate_request (pc : Config.pluginConfig_t) (p : params)
  : Http.request :=
  let role := Js.default (role p) (Js.Str "personal assistant") in
  {| Http.method := "POST";
     Http.url := "http://localhost:" ++ Js.to_string (Config.pc_port pc)
                 ++ "/call/number/" ++ Js.to_string (to p);
     Http.headers := [("Content-Type", Js.Str "application/json");
                      ("X-Voice-Key", Config.apiKey (Config.pc_security pc))];
     Http.body := Some (Js.JSON_stringify
                          [("mission", mission p);
                           ("role", role);
                           ("agent_timezone", Js.Str "America/Los_Angeles")])
  |}.

Definition poll_request (pc : Config.pluginConfig_t) (callSid : Js.value)
  : Http.request :=
  {| Http.method := "GET";
     Http.url := "http://localhost:" ++ Js.to_string (Config.pc_port pc)
                 ++ "/call/" ++ Js.to_string callSid ++ "/result";
     Http.headers := [("X-Voice-Key", Config.apiKey (Config.pc_security pc))];
     Http.body := None
  |}.

(** [result.k] once an earlier read of [result] has succeeded. *)
Definition field (result : Js.value) (k : string) : Js.value :=
  match Js.get result k with
  | Some v => v
  | None => Js.Undefined
  end.

(** The body of the [try] block, from the settled poll on: it returns from
    the handler ([Some]), falls through to the next round ([None]), or
    throws. *)
Definition poll_try (callSid to : Js.value) (f : Http.fetched)
  : Js.completion (option MissionResult.t) :=
  match f with
  | Http.Rejected => Js.Throw Js.FetchError
  | Http.Resolved poll =>
      if Http.ok poll then
        match Http.json poll with
        | None => Js.Throw Js.SyntaxError
        | Some result =>
            match Js.get result "status" with
            | None => Js.Throw Js.TypeError
            | Some status =>
                if Js.is_str status "completed" then
                  Js.Return (Some
                    {| MissionResult.success := field result "success";
                       MissionResult.callSid := callSid;
                       MissionResult.to := to;
                       MissionResult.outcome := field result "outcome";
                       MissionResult.data :=
                         Js.or (field result "data") (Js.Obj []);
                       MissionResult.next_steps :=
                         Js.or (field result "next_steps") (Js.Str "") |})
                else if Js.is_str status "failed"
                        || Js.is_str status "ended_without_result" then
                  Js.Return (Some
                    {| MissionResult.success := Js.Bool false;
                       MissionResult.callSid := callSid;
                       MissionResult.to := to;
                       MissionResult.outcome :=
                         Js.or (field result "reason")
                               (Js.Str "Call ended without mission result");
                       MissionResult.data := Js.Obj [];
                       MissionResult.next_steps :=
                         Js.Str "Retry or find alternative approach" |})
                else Js.Return None
            end
        end
      else Js.Return None
  end.

(** [try { ... } catch (_) { }]: a throw inside the block is swallowed and
    the loop goes on. *)
Definition catch_keep_trying (c : Js.completion (option MissionResult.t))
  : option MissionResult.t :=
  match c with
  | Js.Return r => r
  | Js.Throw _ => None
  end.

Definition timed_out (callSid to : Js.value) : MissionResult.t :=
  {| MissionResult.success := Js.Bool false;
     MissionResult.callSid := callSid;
     MissionResult.to := to;
     MissionResult.outcome :=
       Js.Str "Timed out waiting for call to complete (5 min)";
     MissionResult.data := Js.Obj [];
     MissionResult.next_steps := Js.Str "Check call logs" |}.

(** What the handler meets: the server's answer to the initiating request,
    its answer to each poll in turn, by how many milliseconds each 5 s timer
    fires late and how long each poll takes to settle. *)
Record world : Type := {
  initiation : Http.request -> Http.fetched;
  poll : nat -> Http.fetched;
  timer_late : nat -> N;
  poll_took : nat -> N
}.

(** What the handler does, in order. *)
Inductive event : Type :=
| waited (ms : Z)
| fetch (rq : Http.request).

(** A finished run: what was done, [Date.now() - startTime] at the end, and
    what the run settled with. *)
Record run (A : Type) : Type := {
  events : list event;
  elapsed : Z;
  settled : A
}.
Arguments events {A} r.
Arguments elapsed {A} r.
Arguments settled {A} r.

Definition after {A : Type} (es : list event) (r : run A) : run A :=
  {| events := es ++ events r; elapsed := elapsed r; settled := settled r |}.

(** How long [setTimeout(r, POLL_MS)] takes in round [k]. *)
Definition timer (w : world) (k : nat) : Z := POLL_MS + Z.of_N (timer_late w k).

(** The [while] loop from its [i]-th round on, entered [now] milliseconds
    after [startTime].  [fuel] bounds the rounds; [None] is a loop cut short
    by the bound, not a behaviour of the code. *)
Fixpoint poll_loop (fuel : nat) (pc : Config.pluginConfig_t) (w : world)
    (callSid to : Js.value) (i : nat) (now : Z) : option (run MissionResult.t) :=
  if now <? MAX_WAIT_MS then
    match fuel with
    | O => None
    | S fuel =>
        let now' := now + timer w i + Z.of_N (poll_took w i) in
        let round := [waited (timer w i); fetch (poll_request pc callSid)] in
        match catch_keep_trying (poll_try callSid to (poll w i)) with
        | Some result =>
            Some {| events := round; elapsed := now'; settled := result |}
        | None =>
            after round <$> poll_loop fuel pc w callSid to (S i) now'
        end
    end
  else
    Some {| events := []; elapsed := now; settled := timed_out callSid to |}.

(** [handler(params, ctx)] *)
Definition handler (fuel : nat) (pc : Config.pluginConfig_t) (w : world)
    (p : params) : option (run (Js.completion MissionResult.t)) :=
  let rq := initiate_request pc p in
  let throw e := Some {| events := [fetch rq]; elapsed := 0;
                         settled := Js.Throw e |} in
  match initiation w rq with
  | Http.Rejected => throw Js.FetchError
  | Http.Resolved response =>
      if negb (Http.ok response) then
        let error := Http.text response in
        throw (Js.Error ("Failed to initiate call: " ++ error))
      else
        match Http.json response with
        | None => throw Js.SyntaxError
        | Some callInfo =>
            match Js.get callInfo "call_sid" with
            | None => throw Js.TypeError
            | Some callSid =>
                (fun r => {| events := fetch rq :: events r;
                             elapsed := elapsed r;
                             settled := Js.Return (settled r) |})
                <$> poll_loop fuel pc w callSid (field callInfo "to") 0 0
            end
        end
  end.

(** Rounds after which the deadline has passed whatever the delays. *)
Definition enough_fuel : nat := Z.to_nat (MAX_WAIT_MS / POLL_MS).

(** The requests among the events, and the waits. *)
Definition requests (es : list event) : list Http.request :=
  omap (fun e => match e with fetch rq => Some rq | waited _ => None end) es.

Definition waits (es : list event) : list Z :=
  omap (fun e => match e with waited ms => Some ms | fetch _ => None end) es.

(** What round [k] of the loop decides once its poll has settled. *)
Definition verdict (w : world) (callSid to : Js.value) (k : nat)
  : option MissionResult.t :=
  catch_keep_trying (poll_try callSid to (poll w k)).

(** The events of rounds [i .. i+n-1]. *)
Fixpoint rounds (pc : Config.pluginConfig_t) (w : world) (callSid : Js.value)
    (i n : nat) : list event :=
  match n with
  | O => []
  | S n => waited (timer w i) :: fetch (poll_request pc callSid)
           :: rounds pc w callSid (S i) n
  end.

(** [Date.now() - startTime] after rounds [i .. i+n-1], entered at [now]. *)
Fixpoint clock (w : world) (i n : nat) (now : Z) : Z :=
  match n with
  | O => now
  | S n => clock w (S i) n (now + timer w i + Z.of_N (poll_took w i))
  end.

(** Timers that fire on time and polls that settle at once. *)
Definition prompt (w : world) : Prop :=
  forall k, timer_late w k = 0%N /\ poll_took w k = 0%N.

(** What the handler returned, if it returned. *)
Definition returned (r : option (run (Js.completion MissionResult.t)))
  : option MissionResult.t :=
  r ≫= fun r => match settled r with
                | Js.Return res => Some res
                | Js.Throw _ => None
                end.

(** The returned object as the caller sees it. *)
Definition to_object (res : MissionResult.t) : Js.value :=
  Js.Obj [("success", MissionResult.success res);
          ("callSid", MissionResult.callSid res);
          ("to", MissionResult.to res);
          ("outcome", MissionResult.outcome res);
          ("data", MissionResult.data res);
          ("next_steps", MissionResult.next_steps res)].

(** The initiating request was answered ok with the JSON document
    [callInfo], whose [call_sid] is [callSid]. *)
Definition initiated (pc : Config.pluginConfig_t) (w : world) (p : params)
    (callInfo callSid : Js.value) : Prop :=
  exists response,
    initiation w (initiate_request pc p) = Http.Resolved response /\
    Http.ok response = true /\
    Http.json response = Some callInfo /\
    Js.get callInfo "call_sid" = Some callSid.

(** The [status] a settled poll reports, when it is ok and carries JSON. *)
Definition status_of (f : Http.fetched) : option Js.value :=
  match f with
  | Http.Resolved poll =>
      if Http.ok poll then Http.json poll ≫= fun result => Js.get result "status"
      else None
  | Http.Rejected => None
  end.

Definition terminal (status : Js.value) : bool :=
  Js.is_str status "completed" || Js.is_str status "failed"
  || Js.is_str status "ended_without_result".

Definition reports_terminal (f : Http.fetched) : bool :=
  match status_of f with
  | Some status => terminal status
  | None => false
  end.

End Plugin.

(** ** The voice engine: authentication gate and call session *)

Module Engine.

Inductive auth_state : Type :=
| unauthenticated
| authenticated.

Definition is_space (c : ascii) : bool :=
  let n := nat_of_ascii c in
  ((9 <=? n) && (n <=? 13) || (n =? 32))%nat.

Definition lower (c : ascii) : ascii :=
  let n := nat_of_ascii c in
  if ((65 <=? n) && (n <=? 90))%nat then ascii_of_nat (n + 32) else c.

Definition upper (c : ascii) : ascii :=
  let n := nat_of_ascii c in
  if ((97 <=? n) && (n <=? 122))%nat then ascii_of_nat (n - 32) else c.

Definition flush (cur : list ascii) : list (list ascii) :=
  match cur with
  | [] => []
  | _ => [cur]
  end.

(** The words of a text: its maximal runs of characters that are not
    whitespace.  [cur] is the word being read. *)
Fixpoint split (cur : list ascii) (s : list ascii) : list (list ascii) :=
  match s with
  | [] => flush cur
  | c :: s' =>
      if is_space c then flush cur ++ split [] s' else split (cur ++ [c]) s'
  end.

(** The words joined by single spaces. *)
Fixpoint join (ws : list (list ascii)) : list ascii :=
  match ws with
  | [] => []
  | [w] => w
  | w :: rest => w ++ " "%char :: join rest
  end.

(** Modelled from the spec: the gate's normalisation, absent from the
    JavaScript sources ("case-insensitive, whitespace-normalized"): lower
    case, words joined by single spaces, nothing at either end. *)
Definition normalize (s : string) : string :=
  string_of_list_ascii
    (join (split [] (List.map lower (list_ascii_of_string s)))).

(** Is [needle] a substring of [hay]? *)
Fixpoint contains (needle hay : string) : bool :=
  String.prefix needle hay ||
  match hay with
  | EmptyString => false
  | String _ hay' => contains needle hay'
  end.

(** Modelled from the spec: the gate's test, absent from the JavaScript
    sources ("containment matching of the configured passphrase inside the
    utterance"). *)
Definition matches (passphrase utteranceText : string) : bool :=
  contains (normalize passphrase) (normalize utteranceText).

(** Modelled from the spec: the Authentication Gate, absent from the
    JavaScript sources: a pure function
    [(currentState, utteranceText) -> nextState] that never leaves
    [authenticated]. *)
Definition gate (passphrase : string) (currentState : auth_state)
    (utteranceText : string) : auth_state :=
  match currentState with
  | authenticated => authenticated
  | unauthenticated =>
      if matches passphrase utteranceText then authenticated
      else unauthenticated
  end.

(** The gate over the utterances of a call, in order. *)
Definition gate_all (passphrase : string) (s : auth_state)
    (utterances : list string) : auth_state :=
  List.fold_left (gate passphrase) utterances s.

Definition uppercase (s : string) : string :=
  string_of_list_ascii (List.map upper (list_ascii_of_string s)).

(** *** Call session *)

Inductive direction : Type := inbound | outbound.

Inductive lifecycle : Type :=
| CONNECTING
| ACTIVE_UNAUTHENTICATED
| ACTIVE_AUTHENTICATED
| TERMINATING
| CLOSED.

Record session : Type := {
  callId : string;
  dir : direction;
  state : lifecycle;
  auth : auth_state
}.

Inductive tool_result : Type :=
| tool_ok (payload : string)
| tool_failed (why : string)
| capability_denied.

(** What reaches a session. *)
Inductive input : Type :=
| ai_leg_ready
| ai_leg_setup_failed
| utterance (text : string)
| tool_invocation (tool arguments : string)
| leg_ended
| unauthenticated_expired
| flushed.

(** What a session does to its collaborators. *)
Inductive action : Type :=
| relay_invoke (tool arguments : string)
| answer_ai (tool : string) (r : tool_result)
| grant_tools
| hang_up.

(** Modelled from the spec: session creation, absent from the JavaScript
    sources: inbound calls start unauthenticated, outbound calls
    pre-authenticated. *)
Definition create (callId : string) (d : direction) : session :=
  {| callId := callId; dir := d; state := CONNECTING;
     auth := match d with
             | inbound => unauthenticated
             | outbound => authenticated
             end |}.

Definition with_state (s : session) (l : lifecycle) : session :=
  {| callId := callId s; dir := dir s; state := l; auth := auth s |}.

(** Modelled from the spec: the Call Session state machine of section 4.1
    with its tool-call interception, absent from the JavaScript sources.
    [relay] is the Tool Relay Client: it reports once, with a result or a
    failure. *)
Definition step (passphrase : string) (relay : string -> string -> tool_result)
    (s : session) (i : input) : session * list action :=
  match state s, i with
  | CONNECTING, ai_leg_ready =>
      (with_state s match dir s with
                    | inbound => ACTIVE_UNAUTHENTICATED
                    | outbound => ACTIVE_AUTHENTICATED
                    end, [])
  | CONNECTING, ai_leg_setup_failed => (with_state s TERMINATING, [])
  | ACTIVE_UNAUTHENTICATED, utterance text =>
      match gate passphrase (auth s) text with
      | authenticated =>
          ({| callId := callId s; dir := dir s;
              state := ACTIVE_AUTHENTICATED; auth := authenticated |},
           [grant_tools])
      | unauthenticated => (s, [])
      end
  | ACTIVE_UNAUTHENTICATED, unauthenticated_expired =>
      (with_state s TERMINATING, [hang_up])
  | ACTIVE_AUTHENTICATED, tool_invocation tool arguments =>
      (s, [relay_invoke tool arguments;
           answer_ai tool (relay tool arguments)])
  | (CONNECTING | ACTIVE_UNAUTHENTICATED | TERMINATING | CLOSED),
    tool_invocation tool _ =>
      (s, [answer_ai tool capability_denied])
  | (CONNECTING | ACTIVE_UNAUTHENTICATED | ACTIVE_AUTHENTICATED), leg_ended =>
      (with_state s TERMINATING, [])
  | TERMINATING, flushed => (with_state s CLOSED, [])
  | _, _ => (s, [])
  end.

(** A call: the session after a sequence of inputs, and everything it did. *)
Fixpoint run (passphrase : string) (relay : string -> string -> tool_result)
    (s : session) (inputs : list input) : session * list action :=
  match inputs with
  | [] => (s, [])
  | i :: rest =>
      let '(s1, acts) := step passphrase relay s i in
      let '(s2, acts') := run passphrase relay s1 rest in
      (s2, (acts ++ acts')%list)
  end.

Definition contacts_backend (a : action) : bool :=
  match a with
  | relay_invoke _ _ => true
  | _ => false
  end.

(** The steps of a call: the session before each input, the input, and what
    the session did on it. *)
Fixpoint history (passphrase : string) (relay : string -> string -> tool_result)
    (s : session) (inputs : list input)
  : list (session * input * list action) :=
  match inputs with
  | [] => []
  | i :: rest =>
      (s, i, snd (step passphrase relay s i))
      :: history passphrase relay (fst (step passphrase relay s i)) rest
  end.

(** What holds of every session of a call: an outbound session is
    authenticated, and so is a session in [ACTIVE_AUTHENTICATED]. *)
Definition consistent (s : session) : Prop :=
  (dir s = outbound -> auth s = authenticated) /\
  (state s = ACTIVE_AUTHENTICATED -> auth s = authenticated).

End Engine.

(** ** Concrete configurations, calls and servers *)

Module Example.

(** A configuration that satisfies [configSchema] (twilio and openai are
    there; security, which the schema does not require, is not). *)
Definition config0 : Config.config :=
  {| Config.enabled := Js.Undefined;
     Config.port := Js.Undefined;
     Config.twilio := Some {| Config.accountSid := Js.Str "AC0123";
                              Config.authToken := Js.Str "token";
                              Config.fromNumber := Js.Str "+15550001111" |};
     Config.openai := Some {| Config.openai_apiKey := Js.Str "sk-test" |};
     Config.security := None;
     Config.config_apiKey := Js.Str "voice-key" |}.

(** A configuration whose security block has an empty challenge. *)
Definition config_empty_challenge : Config.config :=
  {| Config.enabled := Js.Bool true;
     Config.port := Js.Num 8001;
     Config.twilio := Config.twilio config0;
     Config.openai := Config.openai config0;
     Config.security := Some {| Config.challenge := Js.Str "";
                                Config.apiKey := Js.Str "voice-key" |};
     Config.config_apiKey := Js.Undefined |}.

(** A process environment without SECURITY_CHALLENGE. *)
Definition env0 : gmap string string := {[ "HOME" := "/home/clawd" ]}.

Definition pc0 : Config.pluginConfig_t := Config.pluginConfig env0 config0.

Definition mission0 : Plugin.params :=
  {| Plugin.to := Js.Str "+14155551234";
     Plugin.mission := Js.Str "confirm the 3pm meeting";
     Plugin.role := Js.Undefined |}.

Definition ok_json (v : Js.value) : Http.fetched :=
  Http.Resolved {| Http.ok := true; Http.text := ""; Http.json := Some v |}.

Definition not_found : Http.fetched :=
  Http.Resolved {| Http.ok := false; Http.text := "Not Found";
                   Http.json := Some (Js.Obj [("detail", Js.Str "Not Found")]) |}.

Definition callInfo0 : Js.value :=
  Js.Obj [("success", Js.Bool true); ("call_sid", Js.Str "CA123");
          ("to", Js.Str "+14155551234"); ("from", Js.Str "+15550001111");
          ("status", Js.Str "queued")].

Definition with_status (status : string) : Http.fetched :=
  ok_json (Js.Obj [("status", Js.Str status)]).

Definition world_of (poll : nat -> Http.fetched) : Plugin.world :=
  {| Plugin.initiation := fun _ => ok_json callInfo0;
     Plugin.poll := poll;
     Plugin.timer_late := fun _ => 0%N;
     Plugin.poll_took := fun _ => 0%N |}.

(** A server that says [in_progress] and [timed_out] in turn, for ever. *)
Definition w_never : Plugin.world :=
  world_of (fun k => if Nat.even k then with_status "in_progress"
                     else with_status "timed_out").

Definition left_message : Js.value :=
  Js.Obj [("status", Js.Str "completed"); ("success", Js.Bool true);
          ("outcome", Js.Str "left message");
          ("data", Js.Obj [("voicemail", Js.Bool true)]);
          ("next_steps", Js.Str "none")].

(** The call completes at T+30s: polls 0 to 4 see [in_progress], poll 5
    sees the terminal payload. *)
Definition w_left_message : Plugin.world :=
  world_of (fun k => if (k <? 5)%nat then with_status "in_progress"
                     else ok_json left_message).

Definition completed_null : Js.value :=
  Js.Obj [("status", Js.Str "completed"); ("success", Js.Bool true);
          ("outcome", Js.Str "left message");
          ("data", Js.Null); ("next_steps", Js.Null)].

(** A server that says [in_progress] five times and then completes with a
    payload whose data and next steps are [null]. *)
Definition w_completed_null : Plugin.world :=
  world_of (fun k => if (k <? 5)%nat then with_status "in_progress"
                     else ok_json completed_null).

(** A 404, then a network error, then completion. *)
Definition w_flaky : Plugin.world :=
  world_of (fun k => match k with
                     | O => not_found
                     | 1%nat => Http.Rejected
                     | _ => ok_json left_message
                     end).

Definition failed_empty_reason : Js.value :=
  Js.Obj [("status", Js.Str "failed"); ("success", Js.Bool false);
          ("outcome", Js.Str "caller hung up"); ("reason", Js.Str "")].

(** A failed call whose reason is the empty string. *)
Definition w_failed_empty_reason : Plugin.world :=
  world_of (fun _ => ok_json failed_empty_reason).

Definition failed_busy : Js.value :=
  Js.Obj [("status", Js.Str "ended_without_result");
          ("outcome", Js.Str "ignored"); ("reason", Js.Str "line busy")].

Definition w_failed_busy : Plugin.world :=
  world_of (fun _ => ok_json failed_busy).

Definition call0 : Register.params :=
  {| Register.to := Js.Str "+14155551234";
     Register.message := Js.Str "Testing";
     Register.mode := Js.Str "notify" |}.

Definition call0_v0 : PluginV0.params :=
  {| PluginV0.to := Js.Str "+14155551234";
     PluginV0.message := Js.Undefined;
     PluginV0.mode := Js.Undefined |}.

Definition forbidden : Http.fetched :=
  Http.Resolved
    {| Http.ok := false;
       Http.text := "Forbidden: Invalid Jarvis API Key";
       Http.json := Some (Js.Obj [("detail",
                             Js.Str "Forbidden: Invalid Jarvis API Key")]) |}.

(** An inbound call: the caller asks for help without the passphrase and
    the AI leg tries a tool; then the caller says the passphrase and the AI
    leg tries again. *)
Definition relay0 (tool arguments : string) : Engine.tool_result :=
  Engine.tool_ok "done".

Definition inbound_call : list Engine.input :=
  [Engine.ai_leg_ready;
   Engine.utterance "Hi, I need help";
   Engine.tool_invocation "web_search" "latest AI news";
   Engine.utterance "it's ramon, secret-phrase-xyz";
   Engine.tool_invocation "web_search" "latest AI news"].

Definition troll_mode : Engine.session :=
  {| Engine.callId := "CA1"; Engine.dir := Engine.inbound;
     Engine.state := Engine.ACTIVE_UNAUTHENTICATED;
     Engine.auth := Engine.unauthenticated |}.

End Example.

(** ** The watchdog: its output, its start and its stop *)

Module Watchdog.

(** *** What the watchdog prints *)

(** The characters [trim()] removes, among the code units below 256: tab,
    line feed, vertical tab, form feed, carriage return, space and the
    no-break space. *)
Definition is_white (c : ascii) : bool :=
  let n := nat_of_ascii c in
  ((9 <=? n) && (n <=? 13) || (n =? 32) || (n =? 160))%nat.

(** The line feed, and the separator of [split]. *)
Definition lf : ascii := "010"%char.
Definition LF : string := String lf EmptyString.

Fixpoint trimStart (s : list ascii) : list ascii :=
  match s with
  | [] => []
  | c :: s' => if is_white c then trimStart s' else s
  end.

Definition trimEnd (s : list ascii) : list ascii := rev (trimStart (rev s)).

(** [s.trim()] *)
Definition trim (s : string) : string :=
  string_of_list_ascii (trimEnd (trimStart (list_ascii_of_string s))).

(** The pieces of a text between its line feeds; [cur] is the piece being
    read.  A text without line feed is one piece, the empty text too. *)
Fixpoint pieces (cur s : list ascii) : list (list ascii) :=
  match s with
  | [] => [cur]
  | c :: s' =>
      if Ascii.eqb c lf then cur :: pieces [] s' else pieces (cur ++ [c]) s'
  end.

(** [s.split(LF)] *)
Definition split (s : string) : list string :=
  List.map string_of_list_ascii (pieces [] (list_ascii_of_string s)).

(** [hay.includes(needle)] *)
Fixpoint includes (needle hay : string) : bool :=
  String.prefix needle hay ||
  match hay with
  | EmptyString => false
  | String _ hay' => includes needle hay'
  end.

(** [lines.forEach(line => { if (line) info(`[watchdog] ${line}`) })] *)
Fixpoint forEach_stdout (lines : list string) : list Plugin.effect :=
  match lines with
  | [] => []
  | line :: rest =>
      (if negb (String.eqb line EmptyString)
       then [Plugin.log_info ("[watchdog] " ++ line)] else [])
      ++ forEach_stdout rest
  end.

(** The same for stderr: lines that mention NotOpenSSLWarning are left out,
    the others are logged as errors. *)
Fixpoint forEach_stderr (lines : list string) : list Plugin.effect :=
  match lines with
  | [] => []
  | line :: rest =>
      (if negb (String.eqb line EmptyString)
          && negb (includes "NotOpenSSLWarning" line)
       then [Plugin.log_error ("[watchdog] " ++ line)] else [])
      ++ forEach_stderr rest
  end.

(** The handlers of the watchdog's stdout and stderr [data] events; [data]
    is the chunk as a string. *)
Definition on_stdout (data : string) : list Plugin.effect :=
  forEach_stdout (split (trim data)).

Definition on_stderr (data : string) : list Plugin.effect :=
  forEach_stderr (split (trim data)).

(** *** Starting *)

(** [startWatchdog()] of plugin 1.1.0: the child inherits [process.env]. *)
Definition startWatchdog (env : gmap string string) (dirname : string)
    (existsSync : string -> bool) : list Plugin.effect :=
  if negb (existsSync (Plugin.watchdogPath dirname)) then
    [Plugin.log_error "[advanced-voice] watchdog.py not found"]
  else
    [Plugin.log_info "[advanced-voice] Starting watchdog (tunnel + server manager)";
     Plugin.spawn "python3" ["-u"; Plugin.watchdogPath dirname] (Js.Str <$> env);
     Plugin.log_info "[advanced-voice] Watchdog started"].

(** [onLoad(ctx)] of the first revision of plugin 1.0.0: [spawn] is given no
    [env], so the child inherits [process.env] and nothing of the plugin's
    configuration. *)
Definition onLoad_first (pc : Config.pluginConfig_t) (env : gmap string string)
    (dirname : string) (existsSync : string -> bool) : list Plugin.effect :=
  Plugin.log_info "[advanced-voice] Plugin loaded" ::
  if negb (Js.truthy (Config.pc_enabled pc)) then
    [Plugin.log_info "[advanced-voice] Plugin disabled in config"]
  else
    if negb (existsSync (Plugin.watchdogPath dirname)) then
      [Plugin.log_error "[advanced-voice] watchdog.py not found"]
    else
      [Plugin.log_info "[advanced-voice] Starting watchdog (tunnel + server manager)";
       Plugin.spawn "python3" ["-u"; Plugin.watchdogPath dirname] (Js.Str <$> env);
       Plugin.log_info "[advanced-voice] Watchdog started (managing tunnel + server)"].

(** The variables the later revision sets for the child on top of
    [process.env]. *)
Definition overridden : list string :=
  ["PORT"; "TWILIO_ACCOUNT_SID"; "TWILIO_AUTH_TOKEN"; "TWILIO_NUMBER";
   "OPENAI_API_KEY"; "VOICE_API_KEY"; "SECURITY_CHALLENGE"; "GATEWAY_URL";
   "GATEWAY_TOKEN"].

(** *** The life of the child processes *)

Inductive signal : Type := SIGTERM | SIGKILL.

(** A [ChildProcess]: its [killed] flag, which [kill()] sets when the signal
    was delivered, and whether its [exit] event has been emitted. *)
Record child : Type := {
  killed : bool;
  exited : bool
}.

(** The closure's state: the variable [watchdogProcess] ([None] is null;
    a child is named by its rank among the children spawned), the children
    spawned so far, and how many calls of the stop function are suspended in
    their two-second wait. *)
Record state : Type := {
  watchdogProcess : option nat;
  children : list child;
  waiting : nat
}.

Definition initial : state :=
  {| watchdogProcess := None; children := []; waiting := 0 |}.

Inductive action : Type :=
| did (e : Plugin.effect)
| log_warn (msg : string)
| kill (pid : nat) (sig : signal) (delivered : bool).

(** Which of the three plugins runs. *)
Inductive revision : Type :=
| register_1_1
| plugin_1_0 (pc : Config.pluginConfig_t)
| plugin_1_0_first (pc : Config.pluginConfig_t).

(** What happens to the plugin: the service is started (with what
    [existsSync] answers) or stopped, the two-second timer of a suspended
    stop fires, a child emits [exit].  [delivered] is what [kill()] returns
    if the step calls it. *)
Inductive input : Type :=
| start (existsSync : string -> bool)
| stop (delivered : bool)
| timer_fired (delivered : bool)
| child_exit (pid : nat) (code sig : Js.value).

(** [watchdogProcess = spawn(...)] *)
Definition adopt (st : state) : state :=
  {| watchdogProcess := Some (length (children st));
     children := children st ++ [{| killed := false; exited := false |}];
     waiting := waiting st |}.

Definition start_effects (rv : revision) (env : gmap string string)
    (dirname : string) (existsSync : string -> bool) : list Plugin.effect :=
  match rv with
  | register_1_1 => startWatchdog env dirname existsSync
  | plugin_1_0 pc => Plugin.onLoad pc env dirname existsSync
  | plugin_1_0_first pc => onLoad_first pc env dirname existsSync
  end.

(** [child.kill(sig)] *)
Definition send (st : state) (pid : nat) (sig : signal) (delivered : bool)
  : state * list action :=
  ({| watchdogProcess := watchdogProcess st;
      children := alter (fun c => {| killed := killed c || delivered;
                                     exited := exited c |}) pid (children st);
      waiting := waiting st |},
   [kill pid sig delivered]).

Definition stopping (rv : revision) : string :=
  match rv with
  | register_1_1 => "[advanced-voice] Stopping watchdog"
  | _ => "[advanced-voice] Stopping watchdog (will clean up tunnel + server)"
  end.

Definition is_killed (st : state) (pid : nat) : bool :=
  match children st !! pid with
  | Some c => killed c
  | None => false
  end.

(** [code !== 0 && code !== null] *)
Definition abnormal (code : Js.value) : bool :=
  match code with
  | Js.Num 0 | Js.Null => false
  | _ => true
  end.

(** One step of the plugin's life: [stopWatchdog] and [onUnload] up to
    their [await], their continuation, and the [exit] handler. *)
Definition step (rv : revision) (env : gmap string string) (dirname : string)
    (st : state) (i : input) : state * list action :=
  match i with
  | start existsSync =>
      let es := start_effects rv env dirname existsSync in
      (match Plugin.spawned es with
       | Some _ => adopt st
       | None => st
       end, List.map did es)
  | stop delivered =>
      match watchdogProcess st with
      | None => (st, [])
      | Some pid =>
          let '(st1, acts) := send st pid SIGTERM delivered in
          ({| watchdogProcess := watchdogProcess st1;
              children := children st1;
              waiting := S (waiting st1) |},
           did (Plugin.log_info (stopping rv)) :: acts)
      end
  | timer_fired delivered =>
      match waiting st with
      | O => (st, [])
      | S n =>
          let '(st1, acts) :=
            match watchdogProcess st with
            | Some pid =>
                if negb (is_killed st pid) then send st pid SIGKILL delivered
                else (st, [])
            | None => (st, [])
            end in
          ({| watchdogProcess := None; children := children st1; waiting := n |},
           (acts ++ [did (Plugin.log_info "[advanced-voice] Watchdog stopped")])%list)
      end
  | child_exit pid code sig =>
      match children st !! pid with
      | Some c =>
          if exited c then (st, [])
          else
            ({| watchdogProcess := None;
                children := <[pid := {| killed := killed c; exited := true |}]>
                              (children st);
                waiting := waiting st |},
             if abnormal code
             then [log_warn ("[watchdog] Exited with code " ++ Js.to_string code
                             ++ " signal " ++ Js.to_string sig)]
             else [])
      | None => (st, [])
      end
  end.

(** The plugin's life over a sequence of inputs: where it ends and all it
    did. *)
Fixpoint run (rv : revision) (env : gmap string string) (dirname : string)
    (st : state) (inputs : list input) : state * list action :=
  match inputs with
  | [] => (st, [])
  | i :: rest =>
      let '(st1, acts) := step rv env dirname st i in
      let '(st2, acts') := run rv env dirname st1 rest in
      (st2, (acts ++ acts')%list)
  end.

(** How many children the actions spawned. *)
Fixpoint spawns (tr : list action) : nat :=
  match tr with
  | [] => 0
  | did (Plugin.spawn _ _ _) :: rest => S (spawns rest)
  | _ :: rest => spawns rest
  end.

(** What holds of the state after the actions [tr]: as many children as
    were spawned; the variable, when set, names the last of them, which has
    not exited; a child a signal was delivered to has its [killed] flag. *)
Record inv (st : state) (tr : list action) : Prop := {
  inv_count : length (children st) = spawns tr;
  inv_latest : forall p, watchdogProcess st = Some p ->
                         S p = length (children st);
  inv_killed : forall pid sig, In (kill pid sig true) tr ->
                               is_killed st pid = true;
  inv_alive : forall p, watchdogProcess st = Some p ->
                        exists c, children st !! p = Some c /\ exited c = false
}.

(** The child [p] has emitted [exit]. *)
Definition has_exited (st : state) (p : nat) : Prop :=
  exists c, children st !! p = Some c /\ exited c = true.

End Watchdog.

(** ** More configurations *)

Module Sample.

(** A security block without apiKey, and an environment that has one. *)
Definition config_no_apiKey : Config.config :=
  {| Config.enabled := Js.Undefined;
     Config.port := Js.Num 9000;
     Config.twilio := None;
     Config.openai := None;
     Config.security := Some {| Config.challenge := Js.Str "open sesame";
                                Config.apiKey := Js.Undefined |};
     Config.config_apiKey := Js.Str "top-level-key" |}.

Definition env_with_key : gmap string string :=
  {[ "VOICE_API_KEY" := "env-key"; "PATH" := "/usr/bin" ]}.

Definition config_bare : Config.config :=
  {| Config.enabled := Js.Undefined;
     Config.port := Js.Undefined;
     Config.twilio := None;
     Config.openai := None;
     Config.security := None;
     Config.config_apiKey := Js.Undefined |}.

(** Two lines as Python prints them. *)
Definition two_lines : list string :=
  ["[Watchdog] tunnel up"; "  server listening on 8001"].

(** A server that answers [failed] on the third poll. *)
Definition w_failed_third : Plugin.world :=
  Example.world_of (fun k => match k with
                             | 2%nat => Example.ok_json Example.failed_busy
                             | _ => Example.with_status "in_progress"
                             end).

(** A server that is slow: every timer is 40 ms late, every poll takes 300 ms. *)
Definition w_slow : Plugin.world :=
  {| Plugin.initiation := fun _ => Example.ok_json Example.callInfo0;
     Plugin.poll := fun _ => Example.with_status "in_progress";
     Plugin.timer_late := fun _ => 40%N;
     Plugin.poll_took := fun _ => 300%N |}.

(** Started twice, then stopped. *)
Definition started_twice : list Watchdog.input :=
  [Watchdog.start (fun _ => true); Watchdog.start (fun _ => true)].

(** Stopped with a SIGTERM that could not be delivered. *)
Definition stop_undelivered : list Watchdog.input :=
  [Watchdog.start (fun _ => true); Watchdog.stop false].

End Sample.

(** * Properties *)

(** ** The poll loop *)

Section PollLoop.

Variable pc : Config.pluginConfig_t.
Variable w : Plugin.world.
Variables callSid to : Js.value.

Let loop fuel := Plugin.poll_loop fuel pc w callSid to.
Let verdict := Plugin.verdict w callSid to.

Lemma clock_ge (i n : nat) (now : Z) :
  now + Plugin.POLL_MS * Z.of_nat n <= Plugin.clock w i n now.
Proof.
  revert i now; induction n as [|n IH]; intros i now; simpl Plugin.clock.
  - lia.
  - specialize (IH (S i) (now + Plugin.timer w i + Z.of_N (Plugin.poll_took w i))).
    unfold Plugin.timer, Plugin.POLL_MS in *. lia.
Qed.

Lemma clock_prompt (i n : nat) (now : Z) :
  Plugin.prompt w ->
  Plugin.clock w i n now = now + Plugin.POLL_MS * Z.of_nat n.
Proof.
  intros Hp; revert i now; induction n as [|n IH]; intros i now; simpl Plugin.clock.
  - lia.
  - rewrite IH. destruct (Hp i) as [Hl Ht].
    unfold Plugin.timer; rewrite Hl, Ht. lia.
Qed.

Lemma clock_mono (i n m : nat) (now : Z) :
  (n <= m)%nat -> Plugin.clock w i n now <= Plugin.clock w i m now.
Proof.
  revert i m now; induction n as [|n IH]; intros i m now Hnm.
  - simpl. pose proof (clock_ge i m now). unfold Plugin.POLL_MS in *. lia.
  - destruct m as [|m]; [lia|]. simpl. apply IH. lia.
Qed.

(** One round of the loop, unfolded. *)
Lemma loop_round (fuel i : nat) (now : Z) :
  now < Plugin.MAX_WAIT_MS ->
  loop (S fuel) i now =
  match verdict i with
  | Some result =>
      Some {| Plugin.events := Plugin.rounds pc w callSid i 1;
              Plugin.elapsed := Plugin.clock w i 1 now;
              Plugin.settled := result |}
  | None =>
      Plugin.after (Plugin.rounds pc w callSid i 1)
        <$> loop fuel (S i) (Plugin.clock w i 1 now)
  end.
Proof.
  intros Hnow. unfold loop, verdict, Plugin.verdict. simpl Plugin.poll_loop.
  apply Z.ltb_lt in Hnow. rewrite Hnow. reflexivity.
Qed.

Lemma loop_deadline (fuel i : nat) (now : Z) :
  Plugin.MAX_WAIT_MS <= now ->
  loop fuel i now =
  Some {| Plugin.events := []; Plugin.elapsed := now;
          Plugin.settled := Plugin.timed_out callSid to |}.
Proof.
  intros Hnow. unfold loop.
  assert ((now <? Plugin.MAX_WAIT_MS) = false) as E by (apply Z.ltb_ge; exact Hnow).
  destruct fuel; simpl; rewrite E; reflexivity.
Qed.

(** The loop returns whenever the fuel covers the time left. *)
Lemma loop_total (fuel i : nat) (now : Z) :
  Plugin.MAX_WAIT_MS - now <= Plugin.POLL_MS * Z.of_nat fuel ->
  is_Some (loop fuel i now).
Proof.
  revert i now; induction fuel as [|fuel IH]; intros i now Hfuel.
  - rewrite loop_deadline by lia. eauto.
  - destruct (Z.lt_ge_cases now Plugin.MAX_WAIT_MS) as [Hlt|Hge].
    + rewrite loop_round by exact Hlt.
      destruct (verdict i); [eauto|].
      apply fmap_is_Some, IH. simpl Plugin.clock.
      unfold Plugin.timer, Plugin.POLL_MS in *. lia.
    + rewrite loop_deadline by exact Hge. eauto.
Qed.

(** More fuel does not change a run. *)
Lemma loop_fuel_mono (fuel fuel' i : nat) (now : Z) r :
  loop fuel i now = Some r -> (fuel <= fuel')%nat -> loop fuel' i now = Some r.
Proof.
  revert fuel' i now r; induction fuel as [|fuel IH]; intros fuel' i now r Hr Hle.
  - destruct (Z.lt_ge_cases now Plugin.MAX_WAIT_MS) as [Hlt|Hge].
    + unfold loop in Hr; simpl in Hr.
      apply Z.ltb_lt in Hlt; rewrite Hlt in Hr; discriminate.
    + rewrite loop_deadline in * by exact Hge. exact Hr.
  - destruct fuel' as [|fuel']; [lia|].
    destruct (Z.lt_ge_cases now Plugin.MAX_WAIT_MS) as [Hlt|Hge].
    + rewrite loop_round in * by exact Hlt.
      destruct (verdict i); [exact Hr|].
      destruct (loop fuel (S i) _) as [r'|] eqn:E; [|discriminate].
      rewrite (IH fuel' _ _ r' E) by lia. exact Hr.
    + rewrite loop_deadline in * by exact Hge. exact Hr.
Qed.

(** How a finished run of the loop looks: [n] rounds, each entered before
    the deadline, all but possibly the last falling through; the run ends
    at the deadline with the timed-out result, or in its last round with
    that round's verdict. *)
Lemma loop_spec (fuel i : nat) (now : Z) r :
  loop fuel i now = Some r ->
  exists n : nat,
    Plugin.events r = Plugin.rounds pc w callSid i n /\
    Plugin.elapsed r = Plugin.clock w i n now /\
    (forall k : nat, (k < n)%nat -> Plugin.clock w i k now < Plugin.MAX_WAIT_MS) /\
    ((forall k : nat, (k < n)%nat -> verdict (i + k)%nat = None) /\
     Plugin.MAX_WAIT_MS <= Plugin.clock w i n now /\
     Plugin.settled r = Plugin.timed_out callSid to
     \/
     exists m : nat, n = S m /\
       (forall k : nat, (k < m)%nat -> verdict (i + k)%nat = None) /\
       verdict (i + m)%nat = Some (Plugin.settled r)).
Proof.
  revert i now r; induction fuel as [|fuel IH]; intros i now r Hr.
  - destruct (Z.lt_ge_cases now Plugin.MAX_WAIT_MS) as [Hlt|Hge].
    + unfold loop in Hr; simpl in Hr.
      apply Z.ltb_lt in Hlt; rewrite Hlt in Hr; discriminate.
    + rewrite loop_deadline in Hr by exact Hge. injection Hr as <-.
      exists 0%nat; simpl; repeat split; try (intros; lia).
      left; repeat split; try (intros; lia); assumption.
  - destruct (Z.lt_ge_cases now Plugin.MAX_WAIT_MS) as [Hlt|Hge].
    + rewrite loop_round in Hr by exact Hlt.
      destruct (verdict i) as [result|] eqn:Ev.
      * injection Hr as <-. exists 1%nat; simpl; repeat split.
        -- intros k Hk. assert (k = 0%nat) as -> by lia. exact Hlt.
        -- right. exists 0%nat. repeat split; [intros; lia|].
           rewrite Nat.add_0_r. exact Ev.
      * destruct (loop fuel (S i) _) as [r'|] eqn:E; [|discriminate].
        injection Hr as <-.
        destruct (IH _ _ _ E) as (n & Hev & Hel & Hin & Hend).
        exists (S n); simpl; repeat split.
        -- f_equal. f_equal. exact Hev.
        -- exact Hel.
        -- intros [|k] Hk; [exact Hlt|]. simpl. apply Hin. lia.
        -- destruct Hend as [(Hnone & Hdl & Hto)|(m & -> & Hnone & Hlast)].
           ++ left; repeat split; [|exact Hdl|exact Hto].
              intros [|k] Hk; [rewrite Nat.add_0_r; exact Ev|].
              replace (i + S k)%nat with (S i + k)%nat by lia. apply Hnone. lia.
           ++ right. exists (S m). repeat split.
              ** intros [|k] Hk; [rewrite Nat.add_0_r; exact Ev|].
                 replace (i + S k)%nat with (S i + k)%nat by lia. apply Hnone. lia.
              ** replace (i + S m)%nat with (S i + m)%nat by lia. exact Hlast.
    + rewrite loop_deadline in Hr by exact Hge. injection Hr as <-.
      exists 0%nat; simpl; repeat split; try (intros; lia).
      left; repeat split; try (intros; lia); assumption.
Qed.

End PollLoop.

(** ** The mission tool *)

Section MissionTool.

Variable pc : Config.pluginConfig_t.
Variable w : Plugin.world.
Variable p : Plugin.params.
Variables callInfo callSid : Js.value.
Hypothesis Hinit : Plugin.initiated pc w p callInfo callSid.

Let to := Plugin.field callInfo "to".
Let verdict := Plugin.verdict w callSid to.

Lemma handler_initiated (fuel : nat) :
  Plugin.handler fuel pc w p =
  (fun r => {| Plugin.events :=
                 Plugin.fetch (Plugin.initiate_request pc p) :: Plugin.events r;
               Plugin.elapsed := Plugin.elapsed r;
               Plugin.settled := Js.Return (Plugin.settled r) |})
  <$> Plugin.poll_loop fuel pc w callSid to 0 0.
Proof.
  destruct Hinit as (response & Hf & Hok & Hjson & Hsid).
  unfold Plugin.handler. rewrite Hf, Hok, Hjson, Hsid. reflexivity.
Qed.

Lemma enough_fuel_covers (fuel : nat) :
  (Plugin.enough_fuel <= fuel)%nat ->
  Plugin.MAX_WAIT_MS - 0 <= Plugin.POLL_MS * Z.of_nat fuel.
Proof.
  intros Hfuel.
  assert (Z.of_nat Plugin.enough_fuel = 60) as E by reflexivity.
  unfold Plugin.MAX_WAIT_MS, Plugin.POLL_MS. lia.
Qed.

(** The number of rounds of a run that started at the start time. *)
Lemma rounds_bounded (n : nat) :
  (forall k : nat, (k < n)%nat -> Plugin.clock w 0 k 0 < Plugin.MAX_WAIT_MS) ->
  (n <= Plugin.enough_fuel)%nat.
Proof.
  intros Hin. destruct n as [|n]; [lia|].
  specialize (Hin n ltac:(lia)).
  pose proof (clock_ge w 0 n 0) as Hge.
  assert (Plugin.enough_fuel = 60%nat) as -> by reflexivity.
  unfold Plugin.MAX_WAIT_MS, Plugin.POLL_MS in *. lia.
Qed.

Lemma verdict_none_iff (k : nat) :
  verdict k = None <-> Plugin.reports_terminal (Plugin.poll w k) = false.
Proof.
  unfold verdict, Plugin.verdict, Plugin.reports_terminal, Plugin.status_of,
    Plugin.poll_try, Plugin.terminal.
  destruct (Plugin.poll w k) as [poll|]; simpl; [|tauto].
  destruct (Http.ok poll); simpl; [|tauto].
  destruct (Http.json poll) as [result|]; simpl; [|tauto].
  destruct (Js.get result "status") as [status|]; simpl; [|tauto].
  destruct (Js.is_str status "completed"); simpl; [split; discriminate|].
  destruct (Js.is_str status "failed"); simpl; [split; discriminate|].
  destruct (Js.is_str status "ended_without_result"); simpl;
    [split; discriminate|tauto].
Qed.

(** With fuel for the whole wait the handler returns, and its run has the
    shape [loop_spec] describes, from round 0 at time 0. *)
Lemma handler_run (fuel : nat) :
  (Plugin.enough_fuel <= fuel)%nat ->
  exists r res (n : nat),
    Plugin.handler fuel pc w p = Some r /\
    Plugin.settled r = Js.Return res /\
    Plugin.events r = Plugin.fetch (Plugin.initiate_request pc p)
                      :: Plugin.rounds pc w callSid 0 n /\
    Plugin.elapsed r = Plugin.clock w 0 n 0 /\
    (forall k : nat, (k < n)%nat -> Plugin.clock w 0 k 0 < Plugin.MAX_WAIT_MS) /\
    ((forall k : nat, (k < n)%nat -> verdict k = None) /\
     Plugin.MAX_WAIT_MS <= Plugin.elapsed r /\
     res = Plugin.timed_out callSid to
     \/
     exists m : nat, n = S m /\
       (forall k : nat, (k < m)%nat -> verdict k = None) /\
       verdict m = Some res).
Proof.
  intros Hfuel. rewrite handler_initiated.
  destruct (loop_total pc w callSid to fuel 0 0 (enough_fuel_covers fuel Hfuel))
    as [r Hr].
  destruct (loop_spec pc w callSid to fuel 0 0 r Hr)
    as (n & Hev & Hel & Hin & Hend).
  rewrite Hr. simpl.
  eexists _, (Plugin.settled r), n. repeat split; simpl.
  - rewrite Hev. reflexivity.
  - exact Hel.
  - exact Hin.
  - destruct Hend as [(Hnone & Hdl & Hto)|(m & -> & Hnone & Hlast)].
    + left. rewrite Hel. repeat split; assumption.
    + right. exists m. repeat split; assumption.
Qed.

(** If the rounds before [m] fall through, round [m] is entered before the
    deadline and decides [res], the handler returns [res] in round [m]. *)
Lemma handler_returns_in_round (fuel m : nat) res :
  (Plugin.enough_fuel <= fuel)%nat ->
  (forall k : nat, (k < m)%nat -> verdict k = None) ->
  verdict m = Some res ->
  Plugin.clock w 0 m 0 < Plugin.MAX_WAIT_MS ->
  Plugin.handler fuel pc w p =
  Some {| Plugin.events := Plugin.fetch (Plugin.initiate_request pc p)
                           :: Plugin.rounds pc w callSid 0 (S m);
          Plugin.elapsed := Plugin.clock w 0 (S m) 0;
          Plugin.settled := Js.Return res |}.
Proof.
  intros Hfuel Hnone Hm Hclock.
  destruct (handler_run fuel Hfuel)
    as (r & res' & n & Hr & Hset & Hev & Hel & Hin & Hend).
  assert (n = S m /\ res' = res) as [-> ->].
  { destruct Hend as [(Hnone' & Hdl & _)|(m' & -> & Hnone' & Hlast)].
    - destruct (Nat.lt_ge_cases m n) as [Hlt|Hge].
      + rewrite (Hnone' m Hlt) in Hm. discriminate.
      + pose proof (clock_mono w 0 n m 0 Hge). lia.
    - destruct (Nat.lt_trichotomy m m') as [Hlt|[->|Hgt]].
      + rewrite (Hnone' m Hlt) in Hm. discriminate.
      + rewrite Hlast in Hm. injection Hm as ->. split; reflexivity.
      + rewrite (Hnone m' Hgt) in Hlast. discriminate. }
  rewrite Hr. f_equal. destruct r as [es el st]; simpl in *. congruence.
Qed.

Lemma requests_rounds (i n : nat) :
  Plugin.requests (Plugin.rounds pc w callSid i n)
  = replicate n (Plugin.poll_request pc callSid).
Proof.
  revert i; induction n as [|n IH]; intros i; simpl; [reflexivity|].
  unfold Plugin.requests in *. simpl. rewrite IH. reflexivity.
Qed.

Lemma waits_rounds (i n : nat) :
  Forall (fun ms => Plugin.POLL_MS <= ms)
         (Plugin.waits (Plugin.rounds pc w callSid i n)).
Proof.
  revert i; induction n as [|n IH]; intros i; simpl; [constructor|].
  unfold Plugin.waits in *. simpl. constructor; [|apply IH].
  unfold Plugin.timer. lia.
Qed.

Lemma waits_rounds_prompt (i n : nat) :
  Plugin.prompt w ->
  Plugin.waits (Plugin.rounds pc w callSid i n) = replicate n Plugin.POLL_MS.
Proof.
  intros Hp. revert i; induction n as [|n IH]; intros i; simpl; [reflexivity|].
  unfold Plugin.waits in *. simpl. rewrite IH.
  unfold Plugin.timer. destruct (Hp i) as [-> _]. reflexivity.
Qed.

End MissionTool.

(** *** Statuses *)

Lemma is_str_iff (v : Js.value) (lit : string) :
  Js.is_str v lit = true <-> v = Js.Str lit.
Proof.
  destruct v; simpl; try (split; [discriminate|intros [=]]).
  rewrite String.eqb_eq. split; [intros ->; reflexivity|intros [=]; assumption].
Qed.

(** The statuses that end the loop are exactly the three strings the code
    compares with. *)
Lemma terminal_iff (status : Js.value) :
  Plugin.terminal status = true <->
  status = Js.Str "completed" \/ status = Js.Str "failed"
  \/ status = Js.Str "ended_without_result".
Proof.
  unfold Plugin.terminal. rewrite !orb_true_iff, !is_str_iff. tauto.
Qed.

(** C9: the polling handler returns for every sequence of poll responses.
    Whatever the polls answer (the sequence [Plugin.poll w] is infinite),
    once the call is initiated the handler settles by returning a result.
    Only the statuses 'completed', 'failed' and 'ended_without_result' end
    the loop: a poll that reports anything else ('timed_out', 'in_progress',
    a non-string, nothing at all) falls through to the next round.  When none
    of the three is ever reported, the handler returns once the five minutes
    have passed, with success=false and the outcome
    'Timed out waiting for call to complete (5 min)'. *)
Theorem polling_handler_always_returns
    (pc : Config.pluginConfig_t) (w : Plugin.world) (p : Plugin.params)
    (callInfo callSid : Js.value) (fuel : nat) :
  (Plugin.enough_fuel <= fuel)%nat ->
  Plugin.initiated pc w p callInfo callSid ->
  exists r res,
    Plugin.handler fuel pc w p = Some r /\
    Plugin.settled r = Js.Return res /\
    (forall status : Js.value,
        Plugin.terminal status = true <->
        status = Js.Str "completed" \/ status = Js.Str "failed"
        \/ status = Js.Str "ended_without_result") /\
    (forall k : nat,
        Plugin.reports_terminal (Plugin.poll w k) = false ->
        Plugin.verdict w callSid (Plugin.field callInfo "to") k = None) /\
    ((forall k : nat, Plugin.reports_terminal (Plugin.poll w k) = false) ->
     res = Plugin.timed_out callSid (Plugin.field callInfo "to") /\
     MissionResult.success res = Js.Bool false /\
     MissionResult.outcome res
       = Js.Str "Timed out waiting for call to complete (5 min)" /\
     Plugin.MAX_WAIT_MS <= Plugin.elapsed r).
Proof.
  intros Hfuel Hinit.
  destruct (handler_run pc w p callInfo callSid Hinit fuel Hfuel)
    as (r & res & n & Hr & Hset & _ & _ & _ & Hend).
  exists r, res. split; [exact Hr|]. split; [exact Hset|].
  split; [exact terminal_iff|].
  split; [intros k Hk; apply (verdict_none_iff w callInfo callSid); exact Hk|].
  intros Hnever.
  destruct Hend as [(_ & Hdl & ->)|(m & _ & _ & Hlast)].
  - repeat split. exact Hdl.
  - rewrite (proj2 (verdict_none_iff w callInfo callSid m) (Hnever m)) in Hlast.
    discriminate.
Qed.

Lemma initiated_example (poll : nat -> Http.fetched) :
  Plugin.initiated Example.pc0 (Example.world_of poll) Example.mission0
                   Example.callInfo0 (Js.Str "CA123").
Proof.
  eexists. repeat split; reflexivity.
Defined.

Lemma polling_handler_always_returns_witness :
  (Plugin.enough_fuel <= 60)%nat /\
  (forall k : nat,
      Plugin.reports_terminal (Plugin.poll Example.w_never k) = false) /\
  exists r res,
    Plugin.handler 60 Example.pc0 Example.w_never Example.mission0 = Some r /\
    Plugin.settled r = Js.Return res /\
    MissionResult.outcome res
      = Js.Str "Timed out waiting for call to complete (5 min)".
Proof.
  assert (Hfuel : (Plugin.enough_fuel <= 60)%nat) by (vm_compute; lia).
  assert (Hnever : forall k : nat,
             Plugin.reports_terminal (Plugin.poll Example.w_never k) = false).
  { intros k. simpl. destruct (Nat.even k); reflexivity. }
  split; [exact Hfuel|]. split; [exact Hnever|].
  destruct (polling_handler_always_returns Example.pc0 Example.w_never
              Example.mission0 Example.callInfo0 (Js.Str "CA123") 60 Hfuel
              (initiated_example _))
    as (r & res & Hr & Hset & _ & _ & Hto).
  exists r, res. split; [exact Hr|]. split; [exact Hset|].
  destruct (Hto Hnever) as (_ & _ & Hout & _). exact Hout.
Defined.

(** C4: the reference polling policy of the mission tool.  Once the call is
    initiated the handler does nothing but rounds of one 5-second timer
    followed by one GET of the call's result endpoint; no round starts after
    five minutes, so there are at most 60 of them; every request after the
    initiating POST is that GET, so nothing cancels the call.  When no poll
    made reports a terminal status the handler gives up: five minutes or
    more after the start it returns the timed-out result, success=false.
    With timers that fire on time and polls that settle at once this is
    exactly 60 polls, 5 seconds apart, and a return at five minutes. *)
Theorem polls_every_five_seconds_for_five_minutes
    (pc : Config.pluginConfig_t) (w : Plugin.world) (p : Plugin.params)
    (callInfo callSid : Js.value) (fuel : nat) :
  (Plugin.enough_fuel <= fuel)%nat ->
  Plugin.initiated pc w p callInfo callSid ->
  exists r res (n : nat),
    Plugin.handler fuel pc w p = Some r /\
    Plugin.settled r = Js.Return res /\
    Plugin.events r = Plugin.fetch (Plugin.initiate_request pc p)
                      :: Plugin.rounds pc w callSid 0 n /\
    Plugin.requests (Plugin.events r)
    = Plugin.initiate_request pc p
      :: replicate n (Plugin.poll_request pc callSid) /\
    Http.method (Plugin.poll_request pc callSid) = "GET" /\
    Http.url (Plugin.poll_request pc callSid)
    = "http://localhost:" ++ Js.to_string (Config.pc_port pc)
      ++ "/call/" ++ Js.to_string callSid ++ "/result" /\
    Forall (fun ms => 5000 <= ms) (Plugin.waits (Plugin.events r)) /\
    (n <= 60)%nat /\
    (forall k : nat, (k < n)%nat -> Plugin.clock w 0 k 0 < 5 * 60 * 1000) /\
    ((forall k : nat, (k < n)%nat ->
                      Plugin.reports_terminal (Plugin.poll w k) = false) ->
     res = Plugin.timed_out callSid (Plugin.field callInfo "to") /\
     MissionResult.success res = Js.Bool false /\
     5 * 60 * 1000 <= Plugin.elapsed r /\
     (Plugin.prompt w ->
      n = 60%nat /\ Plugin.elapsed r = 5 * 60 * 1000 /\
      Plugin.waits (Plugin.events r) = replicate 60 5000)).
Proof.
  intros Hfuel Hinit.
  destruct (handler_run pc w p callInfo callSid Hinit fuel Hfuel)
    as (r & res & n & Hr & Hset & Hev & Hel & Hin & Hend).
  pose proof (rounds_bounded w n Hin) as Hn.
  assert (Plugin.enough_fuel = 60%nat) as E60 by reflexivity.
  exists r, res, n. rewrite Hev.
  split; [exact Hr|]. split; [exact Hset|]. split; [reflexivity|].
  split; [unfold Plugin.requests; simpl; f_equal; apply requests_rounds|].
  split; [reflexivity|]. split; [reflexivity|].
  split; [unfold Plugin.waits; simpl; apply (waits_rounds pc w callSid)|].
  split; [lia|]. split; [exact Hin|].
  intros Hnone.
  destruct Hend as [(_ & Hdl & ->)|(m & -> & _ & Hlast)].
  - split; [reflexivity|]. split; [reflexivity|]. split; [exact Hdl|].
    intros Hp.
    assert (Plugin.elapsed r = 5000 * Z.of_nat n) as Hel'.
    { rewrite Hel, (clock_prompt w 0 n 0 Hp). unfold Plugin.POLL_MS. lia. }
    unfold Plugin.MAX_WAIT_MS in Hdl.
    assert (n = 60%nat) as -> by lia.
    split; [reflexivity|]. split; [lia|].
    unfold Plugin.waits; simpl.
    apply (waits_rounds_prompt pc w callSid 0 60 Hp).
  - rewrite (proj2 (verdict_none_iff w callInfo callSid m)
               (Hnone m ltac:(lia))) in Hlast.
    discriminate.
Qed.

Lemma prompt_example (poll : nat -> Http.fetched) :
  Plugin.prompt (Example.world_of poll).
Proof.
  intros k. split; reflexivity.
Defined.

Lemma polls_every_five_seconds_for_five_minutes_witness :
  (Plugin.enough_fuel <= 60)%nat /\
  exists r,
    Plugin.handler 60 Example.pc0 Example.w_never Example.mission0 = Some r /\
    Plugin.settled r
    = Js.Return (Plugin.timed_out (Js.Str "CA123") (Js.Str "+14155551234")) /\
    Plugin.elapsed r = 5 * 60 * 1000 /\
    Plugin.waits (Plugin.events r) = replicate 60 5000.
Proof.
  assert (Hfuel : (Plugin.enough_fuel <= 60)%nat) by (vm_compute; lia).
  split; [exact Hfuel|].
  destruct (polls_every_five_seconds_for_five_minutes Example.pc0
              Example.w_never Example.mission0 Example.callInfo0
              (Js.Str "CA123") 60 Hfuel (initiated_example _))
    as (r & res & n & Hr & Hset & _ & _ & _ & _ & _ & _ & _ & Hgive).
  destruct Hgive as (Hres & _ & _ & Hprompt).
  { intros k _. simpl. destruct (Nat.even k); reflexivity. }
  destruct (Hprompt (prompt_example _)) as (_ & Hel & Hw).
  exists r. rewrite Hset, Hres. repeat split; assumption.
Defined.

(** C6: a poll that fails is not a failure of the call.  When a poll is
    rejected (network error) or answered with a non-ok status (404 and the
    like), its round neither returns nor lets an exception out: the loop
    goes on with the next round.  The handler as a whole still returns a
    result: the timed-out one once five minutes have passed, or the one
    decided by another round, whose poll reported a terminal status. *)
Theorem failed_poll_keeps_polling
    (pc : Config.pluginConfig_t) (w : Plugin.world) (p : Plugin.params)
    (callInfo callSid : Js.value) (fuel k : nat) :
  (Plugin.enough_fuel <= fuel)%nat ->
  Plugin.initiated pc w p callInfo callSid ->
  (Plugin.poll w k = Http.Rejected \/
   exists response,
     Plugin.poll w k = Http.Resolved response /\ Http.ok response = false) ->
  let to := Plugin.field callInfo "to" in
  Plugin.catch_keep_trying (Plugin.poll_try callSid to (Plugin.poll w k)) = None /\
  (forall (fuel' : nat) (now : Z),
      now < Plugin.MAX_WAIT_MS ->
      Plugin.poll_loop (S fuel') pc w callSid to k now
      = Plugin.after (Plugin.rounds pc w callSid k 1)
          <$> Plugin.poll_loop fuel' pc w callSid to (S k)
                (Plugin.clock w k 1 now)) /\
  exists r res,
    Plugin.handler fuel pc w p = Some r /\
    Plugin.settled r = Js.Return res /\
    (res = Plugin.timed_out callSid to /\ Plugin.MAX_WAIT_MS <= Plugin.elapsed r
     \/
     exists m : nat, m <> k /\
       Plugin.verdict w callSid to m = Some res /\
       Plugin.reports_terminal (Plugin.poll w m) = true).
Proof.
  intros Hfuel Hinit Hfail to. subst to.
  assert (Plugin.verdict w callSid (Plugin.field callInfo "to") k = None) as Hk.
  { unfold Plugin.verdict.
    destruct Hfail as [->|(response & -> & Hok)]; simpl; [reflexivity|].
    rewrite Hok. reflexivity. }
  split; [exact Hk|]. split.
  - intros fuel' now Hnow.
    rewrite (loop_round pc w callSid _ fuel' k now Hnow).
    rewrite Hk. reflexivity.
  - destruct (handler_run pc w p callInfo callSid Hinit fuel Hfuel)
      as (r & res & n & Hr & Hset & _ & _ & _ & Hend).
    exists r, res. split; [exact Hr|]. split; [exact Hset|].
    destruct Hend as [(_ & Hdl & ->)|(m & _ & _ & Hlast)].
    + left. split; [reflexivity|exact Hdl].
    + right. exists m. split; [|split; [exact Hlast|]].
      * intros ->. rewrite Hk in Hlast. discriminate.
      * destruct (Plugin.reports_terminal (Plugin.poll w m)) eqn:E;
          [reflexivity|].
        apply (verdict_none_iff w callInfo callSid) in E.
        rewrite E in Hlast. discriminate.
Qed.

Lemma failed_poll_keeps_polling_witness :
  (Plugin.enough_fuel <= 60)%nat /\
  Plugin.poll Example.w_flaky 1 = Http.Rejected /\
  exists r res,
    Plugin.handler 60 Example.pc0 Example.w_flaky Example.mission0 = Some r /\
    Plugin.settled r = Js.Return res.
Proof.
  assert (Hfuel : (Plugin.enough_fuel <= 60)%nat) by (vm_compute; lia).
  split; [exact Hfuel|]. split; [reflexivity|].
  destruct (failed_poll_keeps_polling Example.pc0 Example.w_flaky
              Example.mission0 Example.callInfo0 (Js.Str "CA123") 60 1 Hfuel
              (initiated_example _) (or_introl eq_refl))
    as (_ & _ & r & res & Hr & Hset & _).
  exists r, res. split; assumption.
Defined.

(** *** Terminal payloads *)

Lemma poll_try_completed (callSid to : Js.value) response result :
  Http.ok response = true ->
  Http.json response = Some result ->
  Js.get result "status" = Some (Js.Str "completed") ->
  Plugin.poll_try callSid to (Http.Resolved response) =
  Js.Return (Some
    {| MissionResult.success := Plugin.field result "success";
       MissionResult.callSid := callSid;
       MissionResult.to := to;
       MissionResult.outcome := Plugin.field result "outcome";
       MissionResult.data := Js.or (Plugin.field result "data") (Js.Obj []);
       MissionResult.next_steps :=
         Js.or (Plugin.field result "next_steps") (Js.Str "") |}).
Proof.
  intros Hok Hjson Hst. unfold Plugin.poll_try.
  rewrite Hok, Hjson, Hst. reflexivity.
Qed.

Lemma poll_try_failed (callSid to : Js.value) response result status :
  Http.ok response = true ->
  Http.json response = Some result ->
  Js.get result "status" = Some status ->
  status = Js.Str "failed" \/ status = Js.Str "ended_without_result" ->
  Plugin.poll_try callSid to (Http.Resolved response) =
  Js.Return (Some
    {| MissionResult.success := Js.Bool false;
       MissionResult.callSid := callSid;
       MissionResult.to := to;
       MissionResult.outcome :=
         Js.or (Plugin.field result "reason")
               (Js.Str "Call ended without mission result");
       MissionResult.data := Js.Obj [];
       MissionResult.next_steps :=
         Js.Str "Retry or find alternative approach" |}).
Proof.
  intros Hok Hjson Hst Hstatus. unfold Plugin.poll_try.
  rewrite Hok, Hjson, Hst. destruct Hstatus as [-> | ->]; reflexivity.
Qed.

Lemma early_polls_fall_through (w : Plugin.world) (callInfo callSid : Js.value)
    (m : nat) :
  (forall k : nat, (k < m)%nat ->
                   Plugin.reports_terminal (Plugin.poll w k) = false) ->
  forall k : nat, (k < m)%nat ->
    Plugin.verdict w callSid (Plugin.field callInfo "to") k = None.
Proof.
  intros H k Hk. apply (verdict_none_iff w callInfo callSid). apply H, Hk.
Qed.

(** C5, as stated, fails.  The server answers polls 0 to 4 with status
    'in_progress' and poll 5 with status 'completed' and a payload whose
    data and next_steps are null (what a Python server sends for None).  The
    handler returns for 'completed', but not with that response's data and
    next_steps: it returns [{}] and [''] in their place. *)
Lemma completed_payload_not_returned_exactly :
  (forall k : nat, (k < 5)%nat ->
     Plugin.poll Example.w_completed_null k
     = Example.with_status "in_progress") /\
  Plugin.poll Example.w_completed_null 5
  = Example.ok_json Example.completed_null /\
  Js.get Example.completed_null "status" = Some (Js.Str "completed") /\
  match Plugin.returned (Plugin.handler 60 Example.pc0 Example.w_completed_null
                           Example.mission0) with
  | Some res =>
      MissionResult.success res = Plugin.field Example.completed_null "success" /\
      MissionResult.outcome res = Plugin.field Example.completed_null "outcome" /\
      MissionResult.data res = Js.Obj [] /\
      MissionResult.data res <> Plugin.field Example.completed_null "data" /\
      MissionResult.next_steps res = Js.Str EmptyString /\
      MissionResult.next_steps res
      <> Plugin.field Example.completed_null "next_steps"
  | None => False
  end.
Proof.
  split.
  { intros k Hk. simpl.
    destruct (Nat.ltb_spec k 5) as [_|Hge]; [reflexivity|lia]. }
  split; [reflexivity|]. split; [reflexivity|].
  vm_compute. repeat split; discriminate.
Qed.

(** C5, amended.  When the polls before poll [m] report no terminal status,
    poll [m] is made before the deadline and is answered ok with status
    'completed', the handler returns in round [m] and not before: its run is
    the initiating POST and exactly [m+1] polls, and it ends no sooner than
    [5 (m+1)] seconds after the start.  The returned object carries the
    response's success flag and outcome unchanged, the response's data when
    it is truthy and [{}] otherwise, and the response's next_steps when it
    is truthy and [''] otherwise. *)
Theorem completed_payload_returned
    (pc : Config.pluginConfig_t) (w : Plugin.world) (p : Plugin.params)
    (callInfo callSid : Js.value) (fuel m : nat)
    (response : Http.response) (result : Js.value) :
  (Plugin.enough_fuel <= fuel)%nat ->
  Plugin.initiated pc w p callInfo callSid ->
  (forall k : nat, (k < m)%nat ->
                   Plugin.reports_terminal (Plugin.poll w k) = false) ->
  Plugin.poll w m = Http.Resolved response ->
  Http.ok response = true ->
  Http.json response = Some result ->
  Js.get result "status" = Some (Js.Str "completed") ->
  Plugin.clock w 0 m 0 < Plugin.MAX_WAIT_MS ->
  exists r res,
    Plugin.handler fuel pc w p = Some r /\
    Plugin.settled r = Js.Return res /\
    Plugin.requests (Plugin.events r)
    = Plugin.initiate_request pc p
      :: replicate (S m) (Plugin.poll_request pc callSid) /\
    Plugin.elapsed r = Plugin.clock w 0 (S m) 0 /\
    5000 * (Z.of_nat m + 1) <= Plugin.elapsed r /\
    MissionResult.success res = Plugin.field result "success" /\
    MissionResult.outcome res = Plugin.field result "outcome" /\
    MissionResult.data res
    = (if Js.truthy (Plugin.field result "data")
       then Plugin.field result "data" else Js.Obj []) /\
    MissionResult.next_steps res
    = (if Js.truthy (Plugin.field result "next_steps")
       then Plugin.field result "next_steps" else Js.Str "") /\
    MissionResult.callSid res = callSid /\
    MissionResult.to res = Plugin.field callInfo "to".
Proof.
  intros Hfuel Hinit Hearly Hpoll Hok Hjson Hst Hclock.
  eexists _, _. split.
  - apply (handler_returns_in_round pc w p callInfo callSid Hinit fuel m);
      [exact Hfuel|apply early_polls_fall_through; exact Hearly| |exact Hclock].
    unfold Plugin.verdict. rewrite Hpoll.
    rewrite (poll_try_completed _ _ response result Hok Hjson Hst). reflexivity.
  - simpl. split; [reflexivity|].
    split; [unfold Plugin.requests; simpl; do 2 f_equal;
            apply (requests_rounds pc w callSid)|].
    split; [reflexivity|].
    split; [|repeat split].
    pose proof (clock_ge w 0 (S m) 0) as Hge. simpl in Hge.
    unfold Plugin.POLL_MS in Hge. lia.
Qed.

Lemma completed_payload_returned_witness :
  (Plugin.enough_fuel <= 60)%nat /\
  Plugin.poll Example.w_left_message 5 = Example.ok_json Example.left_message /\
  Plugin.clock Example.w_left_message 0 5 0 < Plugin.MAX_WAIT_MS /\
  exists r res,
    Plugin.handler 60 Example.pc0 Example.w_left_message Example.mission0
    = Some r /\
    Plugin.settled r = Js.Return res /\
    Plugin.elapsed r = 30000 /\
    MissionResult.success res = Js.Bool true /\
    MissionResult.outcome res = Js.Str "left message".
Proof.
  assert (Hfuel : (Plugin.enough_fuel <= 60)%nat) by (vm_compute; lia).
  assert (Hclock : Plugin.clock Example.w_left_message 0 5 0
                   < Plugin.MAX_WAIT_MS) by (vm_compute; reflexivity).
  split; [exact Hfuel|]. split; [reflexivity|]. split; [exact Hclock|].
  destruct (completed_payload_returned Example.pc0 Example.w_left_message
              Example.mission0 Example.callInfo0 (Js.Str "CA123") 60 5
              {| Http.ok := true; Http.text := EmptyString;
                 Http.json := Some Example.left_message |}
              Example.left_message Hfuel (initiated_example _))
    as (r & res & Hr & Hset & _ & Hel & _ & Hsucc & Hout & _);
    [|reflexivity|reflexivity|reflexivity|reflexivity|exact Hclock|].
  { intros k Hk. simpl.
    destruct (Nat.ltb_spec k 5) as [_|Hge]; [reflexivity|lia]. }
  exists r, res. repeat split; assumption.
Defined.

(** C10, as stated, fails.  The server answers the first poll with status
    'failed' and a reason that is present and is the empty string.  The
    handler's outcome is then not that reason but the default text. *)
Lemma failed_reason_present_not_returned :
  Plugin.poll Example.w_failed_empty_reason 0
  = Example.ok_json Example.failed_empty_reason /\
  Js.get Example.failed_empty_reason "status" = Some (Js.Str "failed") /\
  Js.get Example.failed_empty_reason "reason" = Some (Js.Str EmptyString) /\
  match Plugin.returned (Plugin.handler 60 Example.pc0
                           Example.w_failed_empty_reason Example.mission0) with
  | Some res =>
      MissionResult.outcome res = Js.Str "Call ended without mission result" /\
      MissionResult.outcome res
      <> Plugin.field Example.failed_empty_reason "reason"
  | None => False
  end.
Proof.
  split; [reflexivity|]. split; [reflexivity|]. split; [reflexivity|].
  vm_compute. split; [reflexivity|discriminate].
Qed.

(** C10, amended.  When the polls before poll [m] report no terminal status,
    poll [m] is made before the deadline and is answered ok with status
    'failed' or 'ended_without_result', the handler returns success=false,
    empty data, next_steps 'Retry or find alternative approach', and as
    outcome the response's reason when that is truthy (present and not
    empty) and 'Call ended without mission result' otherwise.  The
    response's outcome field plays no part: any response with the same
    status and reason decides the same object. *)
Theorem failed_payload_returned
    (pc : Config.pluginConfig_t) (w : Plugin.world) (p : Plugin.params)
    (callInfo callSid : Js.value) (fuel m : nat)
    (response : Http.response) (result status : Js.value) :
  (Plugin.enough_fuel <= fuel)%nat ->
  Plugin.initiated pc w p callInfo callSid ->
  (forall k : nat, (k < m)%nat ->
                   Plugin.reports_terminal (Plugin.poll w k) = false) ->
  Plugin.poll w m = Http.Resolved response ->
  Http.ok response = true ->
  Http.json response = Some result ->
  Js.get result "status" = Some status ->
  status = Js.Str "failed" \/ status = Js.Str "ended_without_result" ->
  Plugin.clock w 0 m 0 < Plugin.MAX_WAIT_MS ->
  exists r res,
    Plugin.handler fuel pc w p = Some r /\
    Plugin.settled r = Js.Return res /\
    MissionResult.success res = Js.Bool false /\
    MissionResult.data res = Js.Obj [] /\
    MissionResult.next_steps res = Js.Str "Retry or find alternative approach" /\
    MissionResult.outcome res
    = (if Js.truthy (Plugin.field result "reason")
       then Plugin.field result "reason"
       else Js.Str "Call ended without mission result") /\
    (forall response' result',
        Http.ok response' = true ->
        Http.json response' = Some result' ->
        Js.get result' "status" = Some status ->
        Plugin.field result' "reason" = Plugin.field result "reason" ->
        Plugin.poll_try callSid (Plugin.field callInfo "to")
          (Http.Resolved response')
        = Js.Return (Some res)).
Proof.
  intros Hfuel Hinit Hearly Hpoll Hok Hjson Hst Hstatus Hclock.
  eexists _, _. split.
  - apply (handler_returns_in_round pc w p callInfo callSid Hinit fuel m);
      [exact Hfuel|apply early_polls_fall_through; exact Hearly| |exact Hclock].
    unfold Plugin.verdict. rewrite Hpoll.
    rewrite (poll_try_failed _ _ response result status Hok Hjson Hst Hstatus).
    reflexivity.
  - do 5 (split; [reflexivity|]).
    intros response' result' Hok' Hjson' Hst' Hreason.
    rewrite (poll_try_failed _ _ response' result' status Hok' Hjson' Hst'
               Hstatus).
    rewrite Hreason. reflexivity.
Qed.

Lemma failed_payload_returned_witness :
  (Plugin.enough_fuel <= 60)%nat /\
  Plugin.poll Example.w_failed_busy 0 = Example.ok_json Example.failed_busy /\
  Plugin.clock Example.w_failed_busy 0 0 0 < Plugin.MAX_WAIT_MS /\
  exists r res,
    Plugin.handler 60 Example.pc0 Example.w_failed_busy Example.mission0
    = Some r /\
    Plugin.settled r = Js.Return res /\
    MissionResult.success res = Js.Bool false /\
    MissionResult.outcome res = Js.Str "line busy".
Proof.
  assert (Hfuel : (Plugin.enough_fuel <= 60)%nat) by (vm_compute; lia).
  assert (Hclock : Plugin.clock Example.w_failed_busy 0 0 0
                   < Plugin.MAX_WAIT_MS) by (vm_compute; reflexivity).
  split; [exact Hfuel|]. split; [reflexivity|]. split; [exact Hclock|].
  destruct (failed_payload_returned Example.pc0 Example.w_failed_busy
              Example.mission0 Example.callInfo0 (Js.Str "CA123") 60 0
              {| Http.ok := true; Http.text := EmptyString;
                 Http.json := Some Example.failed_busy |}
              Example.failed_busy (Js.Str "ended_without_result")
              Hfuel (initiated_example _))
    as (r & res & Hr & Hset & Hsucc & _ & _ & Hout & _);
    [|reflexivity|reflexivity|reflexivity|reflexivity
     |right; reflexivity|exact Hclock|].
  { intros k Hk. lia. }
  exists r, res. repeat split; assumption.
Defined.

(** ** Initiating a call *)

Lemma verdict_ids (w : Plugin.world) (callSid to : Js.value) (k : nat) res :
  Plugin.verdict w callSid to k = Some res ->
  MissionResult.callSid res = callSid /\ MissionResult.to res = to.
Proof.
  unfold Plugin.verdict, Plugin.poll_try.
  destruct (Plugin.poll w k) as [poll|]; simpl; [|discriminate].
  destruct (Http.ok poll); simpl; [|discriminate].
  destruct (Http.json poll) as [result|]; simpl; [|discriminate].
  destruct (Js.get result "status") as [status|]; simpl; [|discriminate].
  destruct (Js.is_str status "completed"); simpl;
    [intros [= <-]; split; reflexivity|].
  destruct (Js.is_str status "failed" || Js.is_str status "ended_without_result");
    simpl; [intros [= <-]; split; reflexivity|discriminate].
Qed.

(** Whatever happens next, the mission tool starts with its initiating
    request. *)
Lemma handler_first_event (fuel : nat) (pc : Config.pluginConfig_t)
    (w : Plugin.world) (p : Plugin.params) r :
  Plugin.handler fuel pc w p = Some r ->
  exists rest,
    Plugin.events r = Plugin.fetch (Plugin.initiate_request pc p) :: rest.
Proof.
  unfold Plugin.handler.
  destruct (Plugin.initiation w _) as [response|];
    [|intros [= <-]; eexists; reflexivity].
  destruct (Http.ok response); simpl; [|intros [= <-]; eexists; reflexivity].
  destruct (Http.json response) as [callInfo|];
    [|intros [= <-]; eexists; reflexivity].
  destruct (Js.get callInfo "call_sid") as [callSid|];
    [|intros [= <-]; eexists; reflexivity].
  destruct (Plugin.poll_loop _ _ _ _ _ _ _) as [r'|]; simpl; [|discriminate].
  intros [= <-]. eexists; reflexivity.
Qed.

(** C7, as stated, fails for the mission tool.  Its initiating request is
    answered ok with call_sid, to, from and status; the tool then polls and
    returns the mission result, an object with neither [from] nor [status]. *)
Lemma mission_tool_returns_no_from_or_status :
  Plugin.initiation Example.w_left_message
    (Plugin.initiate_request Example.pc0 Example.mission0)
  = Example.ok_json Example.callInfo0 /\
  Js.get Example.callInfo0 "from" = Some (Js.Str "+15550001111") /\
  Js.get Example.callInfo0 "status" = Some (Js.Str "queued") /\
  match Plugin.returned (Plugin.handler 60 Example.pc0 Example.w_left_message
                           Example.mission0) with
  | Some res =>
      Js.get (Plugin.to_object res) "from" = Some Js.Undefined /\
      Js.get (Plugin.to_object res) "status" = Some Js.Undefined /\
      Js.get (Plugin.to_object res) "from" <> Js.get Example.callInfo0 "from" /\
      Js.get (Plugin.to_object res) "status"
      <> Js.get Example.callInfo0 "status"
  | None => False
  end.
Proof.
  split; [reflexivity|]. split; [reflexivity|]. split; [reflexivity|].
  vm_compute. repeat split; discriminate.
Qed.

(** C7, amended.  Every variant of the tool sends POST /call/number/{to}
    with the header X-Voice-Key set to the configured secret and a JSON body
    that carries agent_timezone and the message (immediate-return variants)
    or the mission and the role (mission variant).  A response that is not
    ok makes every variant throw an error whose message ends with the
    response text.  On an ok response whose body is a JSON object the
    immediate-return variants return success=true with callSid, to, from and
    status read from the response's call_sid, to, from and status; the
    mission variant returns no from and no status: it goes on to poll, and
    the object it returns carries the response's call_sid and to. *)
Theorem call_initiation
    (env : gmap string string) (pc : Config.pluginConfig_t)
    (net : Http.request -> Http.fetched) (w : Plugin.world)
    (a : Register.params) (b : PluginV0.params) (p : Plugin.params)
    (fuel : nat) (response : Http.response) (props : list (string * Js.value)) :
  let rq1 := Register.execute_request env a in
  let rq2 := PluginV0.handler_request pc b in
  let rq3 := Plugin.initiate_request pc p in
  let tz := ("agent_timezone", Js.Str "America/Los_Angeles") in
  (fst (Register.execute env net a) = rq1 /\
   Http.method rq1 = "POST" /\
   Http.url rq1 = "http://localhost:" ++ Register.PORT env ++ "/call/number/"
                  ++ Js.to_string (Register.to a) /\
   Js.prop "X-Voice-Key" (Http.headers rq1)
   = Js.Str (env_or env "VOICE_API_KEY" EmptyString) /\
   Http.body rq1
   = Some [("message", Js.or (Register.message a) (Js.Str EmptyString)); tz]) /\
  (fst (PluginV0.handler pc net b) = rq2 /\
   Http.method rq2 = "POST" /\
   Http.url rq2 = "http://localhost:" ++ Js.to_string (Config.pc_port pc)
                  ++ "/call/number/" ++ Js.to_string (PluginV0.to b) /\
   Js.prop "X-Voice-Key" (Http.headers rq2)
   = Config.apiKey (Config.pc_security pc) /\
   Http.body rq2
   = Some [("message", Js.or (PluginV0.message b) (Js.Str EmptyString)); tz]) /\
  ((forall r, Plugin.handler fuel pc w p = Some r ->
               exists rest, Plugin.events r = Plugin.fetch rq3 :: rest) /\
   Http.method rq3 = "POST" /\
   Http.url rq3 = "http://localhost:" ++ Js.to_string (Config.pc_port pc)
                  ++ "/call/number/" ++ Js.to_string (Plugin.to p) /\
   Js.prop "X-Voice-Key" (Http.headers rq3)
   = Config.apiKey (Config.pc_security pc) /\
   (Plugin.mission p <> Js.Undefined ->
    Http.body rq3
    = Some [("mission", Plugin.mission p);
            ("role", Js.default (Plugin.role p) (Js.Str "personal assistant"));
            tz])) /\
  (Http.ok response = false ->
   (net rq1 = Http.Resolved response ->
    snd (Register.execute env net a)
    = Js.Throw (Js.Error ("Voice call failed: " ++ Http.text response))) /\
   (net rq2 = Http.Resolved response ->
    snd (PluginV0.handler pc net b)
    = Js.Throw (Js.Error ("Voice call failed: " ++ Http.text response))) /\
   (Plugin.initiation w rq3 = Http.Resolved response ->
    Plugin.handler fuel pc w p
    = Some {| Plugin.events := [Plugin.fetch rq3]; Plugin.elapsed := 0;
              Plugin.settled :=
                Js.Throw (Js.Error ("Failed to initiate call: "
                                    ++ Http.text response)) |})) /\
  (Http.ok response = true ->
   Http.json response = Some (Js.Obj props) ->
   let started :=
     {| CallStarted.success := Js.Bool true;
        CallStarted.callSid := Js.prop "call_sid" props;
        CallStarted.to := Js.prop "to" props;
        CallStarted.from := Js.prop "from" props;
        CallStarted.status := Js.prop "status" props |} in
   (net rq1 = Http.Resolved response ->
    snd (Register.execute env net a) = Js.Return started) /\
   (net rq2 = Http.Resolved response ->
    snd (PluginV0.handler pc net b) = Js.Return started) /\
   (Plugin.initiation w rq3 = Http.Resolved response ->
    (Plugin.enough_fuel <= fuel)%nat ->
    exists r res,
      Plugin.handler fuel pc w p = Some r /\
      Plugin.settled r = Js.Return res /\
      MissionResult.callSid res = Js.prop "call_sid" props /\
      MissionResult.to res = Js.prop "to" props /\
      Js.get (Plugin.to_object res) "from" = Some Js.Undefined /\
      Js.get (Plugin.to_object res) "status" = Some Js.Undefined)).
Proof.
  intros rq1 rq2 rq3 tz.
  assert (forall m, Js.JSON_stringify
                      [("message", Js.or m (Js.Str EmptyString)); tz]
                    = [("message", Js.or m (Js.Str EmptyString)); tz]) as Hbody.
  { intros m. unfold Js.JSON_stringify, Js.or.
    destruct (Js.truthy m) eqn:E; [|reflexivity].
    destruct m; try discriminate; reflexivity. }
  split; [|split; [|split; [|split]]].
  - do 4 (split; [reflexivity|]).
    unfold rq1, Register.execute_request; cbn [Http.body].
    rewrite Hbody. reflexivity.
  - do 4 (split; [reflexivity|]).
    unfold rq2, PluginV0.handler_request; cbn [Http.body].
    rewrite Hbody. reflexivity.
  - split; [intros r Hr; apply (handler_first_event fuel pc w p r Hr)|].
    do 3 (split; [reflexivity|]).
    intros Hm. simpl. unfold Js.JSON_stringify. simpl.
    destruct (Plugin.mission p); try contradiction;
      destruct (Plugin.role p); reflexivity.
  - intros Hok. repeat split; intros Hnet.
    + unfold Register.execute; simpl. fold rq1. rewrite Hnet. simpl.
      rewrite Hok. reflexivity.
    + unfold PluginV0.handler; simpl. fold rq2. rewrite Hnet. simpl.
      rewrite Hok. reflexivity.
    + unfold Plugin.handler. fold rq3. rewrite Hnet, Hok. reflexivity.
  - intros Hok Hjson started. repeat split.
    + intros Hnet. unfold Register.execute; simpl. fold rq1. rewrite Hnet.
      simpl. rewrite Hok, Hjson. reflexivity.
    + intros Hnet. unfold PluginV0.handler; simpl. fold rq2. rewrite Hnet.
      simpl. rewrite Hok, Hjson. reflexivity.
    + intros Hnet Hfuel.
      assert (Plugin.initiated pc w p (Js.Obj props) (Js.prop "call_sid" props))
        as Hinit.
      { exists response. repeat split; assumption. }
      destruct (handler_run pc w p _ _ Hinit fuel Hfuel)
        as (r & res & n & Hr & Hset & _ & _ & _ & Hend).
      exists r, res. split; [exact Hr|]. split; [exact Hset|].
      assert (MissionResult.callSid res = Js.prop "call_sid" props /\
              MissionResult.to res = Js.prop "to" props) as [H1 H2].
      { destruct Hend as [(_ & _ & ->)|(m & _ & _ & Hlast)];
          [split; reflexivity|].
        apply verdict_ids in Hlast. exact Hlast. }
      repeat split; assumption.
Qed.

Lemma call_initiation_witness :
  Http.ok {| Http.ok := true; Http.text := EmptyString;
             Http.json := Some Example.callInfo0 |} = true /\
  snd (Register.execute Example.env0 (fun _ => Example.ok_json Example.callInfo0)
         Example.call0)
  = Js.Return {| CallStarted.success := Js.Bool true;
                 CallStarted.callSid := Js.Str "CA123";
                 CallStarted.to := Js.Str "+14155551234";
                 CallStarted.from := Js.Str "+15550001111";
                 CallStarted.status := Js.Str "queued" |} /\
  Http.ok {| Http.ok := false; Http.text := "Forbidden: Invalid Jarvis API Key";
             Http.json := None |} = false /\
  snd (PluginV0.handler Example.pc0 (fun _ => Example.forbidden)
         Example.call0_v0)
  = Js.Throw (Js.Error "Voice call failed: Forbidden: Invalid Jarvis API Key").
Proof.
  split; [reflexivity|]. split.
  - destruct (call_initiation Example.env0 Example.pc0
                (fun _ => Example.ok_json Example.callInfo0)
                Example.w_left_message Example.call0 Example.call0_v0
                Example.mission0 60
                {| Http.ok := true; Http.text := EmptyString;
                   Http.json := Some Example.callInfo0 |}
                [("success", Js.Bool true); ("call_sid", Js.Str "CA123");
                 ("to", Js.Str "+14155551234"); ("from", Js.Str "+15550001111");
                 ("status", Js.Str "queued")])
      as (_ & _ & _ & _ & Hok).
    destruct (Hok eq_refl eq_refl) as (H1 & _ & _).
    exact (H1 eq_refl).
  - split; [reflexivity|].
    destruct (call_initiation Example.env0 Example.pc0
                (fun _ => Example.forbidden)
                Example.w_left_message Example.call0 Example.call0_v0
                Example.mission0 60
                {| Http.ok := false;
                   Http.text := "Forbidden: Invalid Jarvis API Key";
                   Http.json := Some (Js.Obj [("detail",
                                  Js.Str "Forbidden: Invalid Jarvis API Key")]) |}
                [])
      as (_ & _ & _ & Hbad & _).
    destruct (Hbad eq_refl) as (_ & H2 & _).
    exact (H2 eq_refl).
Defined.

(** C8: the mode parameter of the immediate-return tool has no effect.
    Two invocations that differ in nothing but mode (any two values of it,
    'outbound', 'notify' or none) send the same request and, against the
    same server, settle the same way; this holds for both revisions of the
    immediate-return tool. *)
Theorem mode_has_no_effect
    (env : gmap string string) (pc : Config.pluginConfig_t)
    (net : Http.request -> Http.fetched) (to message mode1 mode2 : Js.value) :
  Register.execute env net
    {| Register.to := to; Register.message := message; Register.mode := mode1 |}
  = Register.execute env net
    {| Register.to := to; Register.message := message; Register.mode := mode2 |}
  /\
  PluginV0.handler pc net
    {| PluginV0.to := to; PluginV0.message := message; PluginV0.mode := mode1 |}
  = PluginV0.handler pc net
    {| PluginV0.to := to; PluginV0.message := message; PluginV0.mode := mode2 |}.
Proof.
  split; reflexivity.
Qed.

(** ** Start-up *)

Lemma onLoad_spawns (pc : Config.pluginConfig_t) (env : gmap string string)
    (dirname : string) (existsSync : string -> bool) :
  Js.truthy (Config.pc_enabled pc) = true ->
  existsSync (Plugin.watchdogPath dirname) = true ->
  Plugin.spawned (Plugin.onLoad pc env dirname existsSync)
  = Some (Plugin.childEnv pc env).
Proof.
  intros Hen Hex. unfold Plugin.onLoad. rewrite Hen, Hex. reflexivity.
Qed.

Lemma childEnv_challenge (pc : Config.pluginConfig_t) (env : gmap string string) :
  Plugin.childEnv pc env !! "SECURITY_CHALLENGE"
  = Some (Js.or (Config.challenge (Config.pc_security pc)) (Js.Str EmptyString)).
Proof.
  unfold Plugin.childEnv.
  rewrite lookup_insert_ne by discriminate.
  rewrite lookup_insert_ne by discriminate.
  apply lookup_insert_eq.
Qed.

(** [onLoad] checks that the plugin is enabled and that watchdog.py exists,
    and nothing else: whatever the passphrase, it then starts the watchdog,
    and a challenge that is absent or empty reaches it as the empty
    string. *)
Lemma onLoad_ignores_challenge (pc : Config.pluginConfig_t)
    (env : gmap string string) (dirname : string) (existsSync : string -> bool) :
  Js.truthy (Config.pc_enabled pc) = true ->
  existsSync (Plugin.watchdogPath dirname) = true ->
  Js.truthy (Config.challenge (Config.pc_security pc)) = false ->
  exists child,
    Plugin.spawned (Plugin.onLoad pc env dirname existsSync) = Some child /\
    child !! "SECURITY_CHALLENGE" = Some (Js.Str EmptyString).
Proof.
  intros Hen Hex Hch. exists (Plugin.childEnv pc env).
  split; [apply onLoad_spawns; assumption|].
  rewrite childEnv_challenge. unfold Js.or. rewrite Hch. reflexivity.
Qed.

(** C3: with no passphrase configured [onLoad] still starts the watchdog,
    and so the voice server, handing it an empty SECURITY_CHALLENGE.  Shown
    on a configuration that satisfies the plugin's own schema and has no
    security block (and no SECURITY_CHALLENGE in the environment), and on
    one whose challenge is the empty string. *)
Theorem onLoad_starts_without_passphrase :
  Config.challenge (Config.pc_security Example.pc0) = Js.Undefined /\
  (Plugin.spawned (Plugin.onLoad Example.pc0 Example.env0 "/plugin"
                     (fun _ => true))
   ≫= fun child => child !! "SECURITY_CHALLENGE")
  = Some (Js.Str EmptyString) /\
  (Plugin.spawned (Plugin.onLoad
                     (Config.pluginConfig Example.env0
                        Example.config_empty_challenge)
                     Example.env0 "/plugin" (fun _ => true))
   ≫= fun child => child !! "SECURITY_CHALLENGE")
  = Some (Js.Str EmptyString).
Proof.
  split; [reflexivity|].
  split.
  - rewrite onLoad_spawns by reflexivity. simpl. rewrite childEnv_challenge.
    reflexivity.
  - rewrite onLoad_spawns by reflexivity. simpl. rewrite childEnv_challenge.
    reflexivity.
Qed.

(** ** The authentication gate *)

Section Gate.

Import Engine.

Lemma lower_upper (c : ascii) : lower (upper c) = lower c.
Proof.
  destruct c as [[] [] [] [] [] [] [] []]; reflexivity.
Qed.

Lemma is_space_lower (c : ascii) : is_space (lower c) = is_space c.
Proof.
  destruct c as [[] [] [] [] [] [] [] []]; reflexivity.
Qed.

Lemma list_ascii_of_string_app (a b : string) :
  list_ascii_of_string (a ++ b)
  = (list_ascii_of_string a ++ list_ascii_of_string b)%list.
Proof.
  induction a as [|c a IH]; simpl; [reflexivity|]. rewrite IH. reflexivity.
Qed.

Lemma normalize_uppercase (s : string) : normalize (uppercase s) = normalize s.
Proof.
  unfold normalize, uppercase.
  rewrite list_ascii_of_string_of_list_ascii, List.map_map.
  do 3 f_equal. apply List.map_ext. exact lower_upper.
Qed.

Lemma split_space (cur x y : list ascii) (c : ascii) :
  is_space c = true ->
  split cur (x ++ c :: y)%list = (split cur x ++ split [] y)%list.
Proof.
  intros Hc. revert cur; induction x as [|d x IH]; intros cur; simpl.
  - rewrite Hc. reflexivity.
  - destruct (is_space d).
    + rewrite IH, app_assoc. reflexivity.
    + apply IH.
Qed.

Lemma split_leading_spaces (ws y : list ascii) :
  List.forallb is_space ws = true ->
  split [] (ws ++ y)%list = split [] y.
Proof.
  induction ws as [|c ws IH]; simpl; [reflexivity|].
  intros H. apply andb_true_iff in H as [Hc Hws].
  rewrite Hc. simpl. apply IH, Hws.
Qed.

(** More whitespace where there is some changes nothing. *)
Lemma normalize_extra_whitespace (a b ws : string) (c : ascii) :
  is_space c = true ->
  List.forallb is_space (list_ascii_of_string ws) = true ->
  normalize (a ++ String c (ws ++ b)) = normalize (a ++ String c b).
Proof.
  intros Hc Hws. unfold normalize. do 2 f_equal.
  rewrite !list_ascii_of_string_app. simpl.
  rewrite !list_ascii_of_string_app, !List.map_app. simpl.
  rewrite List.map_app.
  assert (is_space (lower c) = true) as Hc' by (rewrite is_space_lower; exact Hc).
  rewrite !(split_space _ _ _ _ Hc'). f_equal.
  apply split_leading_spaces.
  rewrite List.forallb_forall in *. intros x Hx.
  apply List.in_map_iff in Hx as (y & <- & Hy).
  rewrite is_space_lower. apply Hws, Hy.
Qed.

Lemma join_cons (w : list ascii) (rest : list (list ascii)) :
  join (w :: rest)
  = (w ++ match rest with [] => [] | _ => " "%char :: join rest end)%list.
Proof.
  destruct rest; simpl; [rewrite app_nil_r|]; reflexivity.
Qed.

Lemma join_app_suffix (F Y : list (list ascii)) :
  exists pre, join (F ++ Y) = (pre ++ join Y)%list.
Proof.
  induction F as [|w F [pre IH]].
  - exists []. reflexivity.
  - change ((w :: F) ++ Y)%list with (w :: (F ++ Y))%list. rewrite join_cons.
    destruct (F ++ Y)%list as [|v V] eqn:E.
    + apply app_eq_nil in E as [_ ->]. exists w. reflexivity.
    + rewrite IH. exists (w ++ " "%char :: pre)%list.
      rewrite <- app_assoc. reflexivity.
Qed.

Lemma split_nonempty (b cur : list ascii) : cur <> [] -> split cur b <> [].
Proof.
  revert cur; induction b as [|c b IH]; intros cur Hcur; simpl.
  - destruct cur; [contradiction|discriminate].
  - destruct (is_space c).
    + destruct cur; [contradiction|discriminate].
    + apply IH. destruct cur; discriminate.
Qed.

Lemma split_app_nonempty (p b cur : list ascii) :
  split cur p <> [] -> split cur (p ++ b) <> [].
Proof.
  revert cur; induction p as [|c p IH]; intros cur; simpl.
  - intros H. apply split_nonempty. destruct cur; [contradiction|discriminate].
  - destruct (is_space c).
    + destruct cur as [|d cur]; simpl; [apply IH|discriminate].
    + apply IH.
Qed.

(** The word being read starts the text that follows. *)
Lemma join_split_starts (b cur : list ascii) :
  exists suf, join (split cur b) = (cur ++ suf)%list.
Proof.
  revert cur; induction b as [|c b IH]; intros cur; simpl.
  - exists []. destruct cur; simpl; [reflexivity|rewrite app_nil_r; reflexivity].
  - destruct (is_space c).
    + destruct cur as [|d cur]; [eexists; reflexivity|].
      change (flush (d :: cur) ++ split [] b)%list
        with ((d :: cur) :: split [] b). rewrite join_cons. eexists; reflexivity.
    + destruct (IH (cur ++ [c])%list) as [suf ->].
      exists (c :: suf). rewrite <- app_assoc. reflexivity.
Qed.

(** Text after [p] only adds to the right of what [p] normalises to. *)
Lemma join_split_app_r (p b cur : list ascii) :
  exists suf, join (split cur (p ++ b)) = (join (split cur p) ++ suf)%list.
Proof.
  revert cur; induction p as [|c p IH]; intros cur.
  - simpl. destruct (join_split_starts b cur) as [suf ->].
    exists suf. destruct cur; reflexivity.
  - simpl. destruct (is_space c); [|apply IH].
    destruct (IH []) as [suf Hsuf].
    destruct cur as [|d cur]; [exists suf; exact Hsuf|].
    change (flush (d :: cur) ++ ?X)%list with ((d :: cur) :: X).
    rewrite !join_cons.
    destruct (split [] p) as [|v V] eqn:E.
    + eexists. rewrite <- app_assoc. simpl. reflexivity.
    + pose proof (split_app_nonempty p b [] ltac:(rewrite E; discriminate)) as Hne.
      destruct (split [] (p ++ b)) as [|v' V']; [contradiction|].
      rewrite Hsuf. exists suf.
      rewrite <- !app_assoc. reflexivity.
Qed.

Lemma flush_nonempty (cur : list ascii) : cur <> [] -> flush cur = [cur].
Proof.
  destruct cur; [contradiction|reflexivity].
Qed.

Lemma join_split_cur (x cur cur' : list ascii) :
  cur' <> [] ->
  join (split (cur ++ cur') x) = (cur ++ join (split cur' x))%list.
Proof.
  revert cur'; induction x as [|c x IH]; intros cur' Hne; simpl.
  - rewrite !flush_nonempty by (try exact Hne; destruct cur; destruct cur';
                                  try discriminate; contradiction).
    reflexivity.
  - destruct (is_space c).
    + rewrite !flush_nonempty by (try exact Hne; destruct cur; destruct cur';
                                    try discriminate; contradiction).
      change ([?w] ++ ?X)%list with (w :: X).
      rewrite !join_cons, <- app_assoc. reflexivity.
    + rewrite <- app_assoc. apply IH. destruct cur'; discriminate.
Qed.

(** Text before [x] only adds to the left of what [x] normalises to. *)
Lemma join_split_app_l (a x cur : list ascii) :
  exists pre, join (split cur (a ++ x)) = (pre ++ join (split [] x))%list.
Proof.
  revert cur; induction a as [|c a IH]; intros cur.
  - simpl. destruct x as [|c x]; simpl.
    + exists (join (flush cur)). rewrite app_nil_r. reflexivity.
    + destruct (is_space c).
      * apply join_app_suffix.
      * exists cur. apply (join_split_cur x cur [c]). discriminate.
  - simpl. destruct (is_space c); [|apply IH].
    destruct (IH []) as [pre2 H2].
    destruct (join_app_suffix (flush cur) (split [] (a ++ x))) as [pre1 H1].
    exists (pre1 ++ pre2)%list. rewrite H1, H2, app_assoc. reflexivity.
Qed.

Lemma prefix_app (s t : string) : String.prefix s (s ++ t) = true.
Proof.
  induction s as [|c s IH].
  - change (EmptyString ++ t) with t. destruct t; reflexivity.
  - change (String c s ++ t) with (String c (s ++ t)). simpl.
    destruct (ascii_dec c c); [exact IH|contradiction].
Qed.

Lemma contains_prefix (s t : string) :
  String.prefix s t = true -> contains s t = true.
Proof.
  intros H. destruct t; cbn [contains]; rewrite H; reflexivity.
Qed.

Lemma contains_app (s pre t : string) : contains s (pre ++ s ++ t) = true.
Proof.
  induction pre as [|c pre IH].
  - change (EmptyString ++ s ++ t) with (s ++ t).
    apply contains_prefix, prefix_app.
  - change (String c pre ++ s ++ t) with (String c (pre ++ s ++ t)).
    cbn [contains]. rewrite IH. apply orb_true_r.
Qed.

Lemma string_of_list_ascii_app (a b : list ascii) :
  string_of_list_ascii (a ++ b)
  = string_of_list_ascii a ++ string_of_list_ascii b.
Proof.
  induction a as [|c a IH]; [reflexivity|].
  change (string_of_list_ascii ((c :: a) ++ b))
    with (String c (string_of_list_ascii (a ++ b))).
  rewrite IH. reflexivity.
Qed.

(** A text that has the passphrase in it, as it stands, matches. *)
Lemma matches_verbatim (a p b : string) : matches p (a ++ p ++ b) = true.
Proof.
  unfold matches, normalize.
  rewrite !list_ascii_of_string_app, !List.map_app.
  destruct (join_split_app_l (List.map lower (list_ascii_of_string a))
              (List.map lower (list_ascii_of_string p)
               ++ List.map lower (list_ascii_of_string b)) []) as [pre ->].
  destruct (join_split_app_r (List.map lower (list_ascii_of_string p))
              (List.map lower (list_ascii_of_string b)) []) as [suf ->].
  rewrite !string_of_list_ascii_app. apply contains_app.
Qed.

Lemma gate_all_authenticated (passphrase : string) (utterances : list string) :
  gate_all passphrase authenticated utterances = authenticated.
Proof.
  unfold gate_all. induction utterances as [|u us IH]; simpl; [reflexivity|].
  exact IH.
Qed.

End Gate.

(** C2: the authentication gate.  For every passphrase, utterance and gate
    state: an utterance that does not contain the passphrase (lower case and
    whitespace runs collapsed on both sides) leaves the gate where it is, so
    an unauthenticated gate stays unauthenticated; an utterance that
    contains it authenticates, and so does every utterance in which the
    passphrase stands as said, in whatever case and with whatever extra
    whitespace between or around its words; upper case in the utterance or
    the passphrase and extra whitespace in the utterance do not change the
    gate's answer; and once authenticated no later utterance of the call
    reverts it. *)
Theorem gate_passphrase_match
    (passphrase utteranceText : string) (s : Engine.auth_state) :
  (Engine.matches passphrase utteranceText = false ->
   Engine.gate passphrase Engine.unauthenticated utteranceText
   = Engine.unauthenticated /\
   Engine.gate passphrase s utteranceText = s) /\
  (Engine.matches passphrase utteranceText = true ->
   Engine.gate passphrase s utteranceText = Engine.authenticated) /\
  (forall before said after : string,
      Engine.normalize said = Engine.normalize passphrase ->
      utteranceText = before ++ said ++ after ->
      Engine.gate passphrase s utteranceText = Engine.authenticated) /\
  Engine.gate passphrase s (Engine.uppercase utteranceText)
  = Engine.gate passphrase s utteranceText /\
  Engine.gate (Engine.uppercase passphrase) s utteranceText
  = Engine.gate passphrase s utteranceText /\
  (forall (a b ws : string) (c : ascii),
      utteranceText = a ++ String c b ->
      Engine.is_space c = true ->
      List.forallb Engine.is_space (list_ascii_of_string ws) = true ->
      Engine.gate passphrase s (a ++ String c (ws ++ b))
      = Engine.gate passphrase s utteranceText) /\
  (forall later : list string,
      Engine.gate_all passphrase
        (Engine.gate passphrase Engine.authenticated utteranceText) later
      = Engine.authenticated).
Proof.
  split; [|split; [|split; [|split; [|split; [|split]]]]].
  - intros H. unfold Engine.gate. rewrite H. split; [|destruct s]; reflexivity.
  - intros H. unfold Engine.gate. rewrite H. destruct s; reflexivity.
  - intros before said after Hsaid ->.
    pose proof (matches_verbatim before said after) as H.
    unfold Engine.matches in H. rewrite Hsaid in H.
    unfold Engine.gate, Engine.matches. rewrite H. destruct s; reflexivity.
  - unfold Engine.gate, Engine.matches. rewrite normalize_uppercase.
    reflexivity.
  - unfold Engine.gate, Engine.matches. rewrite normalize_uppercase.
    reflexivity.
  - intros a b ws c -> Hc Hws. unfold Engine.gate, Engine.matches.
    rewrite (normalize_extra_whitespace a b ws c Hc Hws). reflexivity.
  - intros later. simpl. apply gate_all_authenticated.
Qed.

Lemma gate_passphrase_match_witness :
  Engine.matches "secret-phrase-xyz" "Hi, I need help" = false /\
  Engine.gate "secret-phrase-xyz" Engine.unauthenticated "Hi, I need help"
  = Engine.unauthenticated /\
  Engine.normalize "Secret-Phrase-XYZ" = Engine.normalize "secret-phrase-xyz" /\
  Engine.gate "secret-phrase-xyz" Engine.unauthenticated
    "it's ramon, Secret-Phrase-XYZ"
  = Engine.authenticated.
Proof.
  split; [reflexivity|]. split.
  - destruct (gate_passphrase_match "secret-phrase-xyz" "Hi, I need help"
                Engine.unauthenticated) as (Hno & _).
    exact (proj1 (Hno eq_refl)).
  - split; [reflexivity|].
    destruct (gate_passphrase_match "secret-phrase-xyz"
                "it's ramon, Secret-Phrase-XYZ" Engine.unauthenticated)
      as (_ & _ & Hsaid & _).
    exact (Hsaid "it's ramon, " "Secret-Phrase-XYZ" EmptyString
             eq_refl eq_refl).
Defined.

(** ** The call session *)

Section Session.

Import Engine.

Variable passphrase : string.
Variable relay : string -> string -> tool_result.

Lemma create_consistent (callId : string) (d : direction) :
  consistent (create callId d).
Proof.
  unfold consistent, create; simpl. split; [|discriminate].
  intros ->. reflexivity.
Qed.

Lemma step_consistent (s : session) (i : input) :
  consistent s -> consistent (fst (step passphrase relay s i)).
Proof.
  unfold consistent, step. intros [Hd Hs].
  destruct s as [id d st au]; simpl in *.
  destruct st, i; simpl; try (split; [exact Hd|]; try discriminate; exact Hs).
  - destruct d; simpl; (split; [exact Hd|]); [discriminate|].
    intros _. apply Hd. reflexivity.
  - destruct (gate passphrase au text) eqn:E; simpl.
    + split; [exact Hd|discriminate].
    + split; reflexivity.
Qed.

Lemma history_consistent (inputs : list input) (s s' : session) (i : input)
    (acts : list action) :
  consistent s ->
  In (s', i, acts) (history passphrase relay s inputs) ->
  consistent s' /\ acts = snd (step passphrase relay s' i).
Proof.
  revert s; induction inputs as [|j rest IH]; intros s Hs Hin; simpl in Hin.
  - contradiction.
  - destruct Hin as [[= <- <- <-]|Hin].
    + split; [exact Hs|reflexivity].
    + apply (IH _ (step_consistent s j Hs) Hin).
Qed.

Lemma step_unauthenticated (s : session) (i : input) :
  consistent s ->
  auth s = unauthenticated ->
  Forall (fun a => contacts_backend a = false) (snd (step passphrase relay s i)) /\
  forall tool arguments,
    i = tool_invocation tool arguments ->
    step passphrase relay s i = (s, [answer_ai tool capability_denied]).
Proof.
  intros [_ Hs] Hau. unfold step.
  destruct s as [id d st au]; simpl in *. subst au.
  destruct st; try (specialize (Hs eq_refl); discriminate);
    destruct i; simpl;
    try (split; [repeat constructor|intros ? ? [=]; subst; reflexivity]).
  destruct (matches passphrase text); simpl; repeat constructor.
Qed.

End Session.

(** C1: no tool invocation is forwarded while the session is
    unauthenticated.  At every step of every call, inbound or outbound, in
    which the session's authentication state is unauthenticated, the session
    does not contact the backend; if the input is a tool invocation from the
    AI leg, all the session does is answer the AI leg with a
    capability-denied result, and it stays as it is. *)
Theorem unauthenticated_never_forwards
    (passphrase : string) (relay : string -> string -> Engine.tool_result)
    (callId : string) (d : Engine.direction) (inputs : list Engine.input)
    (s : Engine.session) (i : Engine.input) (acts : list Engine.action) :
  In (s, i, acts)
     (Engine.history passphrase relay (Engine.create callId d) inputs) ->
  Engine.auth s = Engine.unauthenticated ->
  Forall (fun a => Engine.contacts_backend a = false) acts /\
  forall tool arguments,
    i = Engine.tool_invocation tool arguments ->
    acts = [Engine.answer_ai tool Engine.capability_denied] /\
    fst (Engine.step passphrase relay s i) = s.
Proof.
  intros Hin Hau.
  destruct (history_consistent passphrase relay inputs _ s i acts
              (create_consistent callId d) Hin) as [Hs ->].
  destruct (step_unauthenticated passphrase relay s i Hs Hau) as [Hno Hden].
  split; [exact Hno|].
  intros tool arguments Hi. rewrite (Hden tool arguments Hi). split; reflexivity.
Qed.

Lemma unauthenticated_never_forwards_witness :
  In (Example.troll_mode,
      Engine.tool_invocation "web_search" "latest AI news",
      [Engine.answer_ai "web_search" Engine.capability_denied])
     (Engine.history "secret-phrase-xyz" Example.relay0
        (Engine.create "CA1" Engine.inbound) Example.inbound_call) /\
  Engine.auth Example.troll_mode = Engine.unauthenticated /\
  Forall (fun a => Engine.contacts_backend a = false)
         [Engine.answer_ai "web_search" Engine.capability_denied].
Proof.
  assert (Hin : In (Example.troll_mode,
                    Engine.tool_invocation "web_search" "latest AI news",
                    [Engine.answer_ai "web_search" Engine.capability_denied])
                   (Engine.history "secret-phrase-xyz" Example.relay0
                      (Engine.create "CA1" Engine.inbound)
                      Example.inbound_call)).
  { vm_compute. right. right. left. reflexivity. }
  split; [exact Hin|]. split; [reflexivity|].
  exact (proj1 (unauthenticated_never_forwards "secret-phrase-xyz"
                  Example.relay0 "CA1" Engine.inbound Example.inbound_call
                  _ _ _ Hin eq_refl)).
Defined.

(** The scenario of the specification: after the passphrase the same tool
    invocation is forwarded to the relay, and only then. *)
Example inbound_call_scenario :
  snd (Engine.run "secret-phrase-xyz" Example.relay0
         (Engine.create "CA1" Engine.inbound) Example.inbound_call)
  = [Engine.answer_ai "web_search" Engine.capability_denied;
     Engine.grant_tools;
     Engine.relay_invoke "web_search" "latest AI news";
     Engine.answer_ai "web_search" (Engine.tool_ok "done")].
Proof.
  reflexivity.
Qed.

(** * More of the code *)

(** ** What the watchdog prints *)

Section Output.

Import Watchdog.

Lemma trimStart_blank (s : list ascii) :
  forallb is_white s = true -> trimStart s = [].
Proof.
  induction s as [|c s IH]; simpl; [reflexivity|].
  intros H. apply andb_true_iff in H as [Hc Hs]. rewrite Hc. apply IH, Hs.
Qed.

Lemma trimStart_head (c : ascii) (s : list ascii) :
  is_white c = false -> trimStart (c :: s) = c :: s.
Proof.
  intros Hc. simpl. rewrite Hc. reflexivity.
Qed.

Lemma pieces_no_lf (s cur : list ascii) :
  ~ In lf cur -> Forall (fun p => ~ In lf p) (pieces cur s).
Proof.
  revert cur; induction s as [|c s IH]; intros cur Hcur; simpl.
  - constructor; [exact Hcur|constructor].
  - destruct (Ascii.eqb_spec c lf) as [->|Hc].
    + constructor; [exact Hcur|]. apply IH. intros [].
    + apply IH. intros Hin. apply in_app_or in Hin as [Hin|[->|[]]];
        [exact (Hcur Hin)|exact (Hc eq_refl)].
Qed.

(** A text without line feed is one piece. *)
Lemma pieces_line (l cur : list ascii) :
  ~ In lf l -> pieces cur l = [(cur ++ l)%list].
Proof.
  revert cur; induction l as [|c l IH]; intros cur Hl; simpl.
  - rewrite app_nil_r. reflexivity.
  - destruct (Ascii.eqb_spec c lf) as [->|Hc]; [destruct Hl; left; reflexivity|].
    rewrite IH by (intros Hin; apply Hl; right; exact Hin).
    rewrite <- app_assoc. reflexivity.
Qed.

Lemma pieces_line_lf (l rest cur : list ascii) :
  ~ In lf l ->
  pieces cur (l ++ lf :: rest) = (cur ++ l)%list :: pieces [] rest.
Proof.
  revert cur; induction l as [|c l IH]; intros cur Hl; simpl.
  - rewrite ?Ascii.eqb_refl, app_nil_r. reflexivity.
  - destruct (Ascii.eqb_spec c lf) as [->|Hc]; [destruct Hl; left; reflexivity|].
    rewrite IH by (intros Hin; apply Hl; right; exact Hin).
    rewrite <- app_assoc. reflexivity.
Qed.

Lemma forEach_stdout_spec (lines : list string) :
  forEach_stdout lines
  = List.map (fun line => Plugin.log_info ("[watchdog] " ++ line))
      (List.filter (fun line => negb (String.eqb line EmptyString)) lines).
Proof.
  induction lines as [|line rest IH]; simpl; [reflexivity|].
  rewrite IH. destruct (String.eqb line EmptyString); reflexivity.
Qed.

Lemma forEach_stderr_spec (lines : list string) :
  forEach_stderr lines
  = List.map (fun line => Plugin.log_error ("[watchdog] " ++ line))
      (List.filter (fun line => negb (String.eqb line EmptyString)
                                && negb (includes "NotOpenSSLWarning" line))
                   lines).
Proof.
  induction lines as [|line rest IH]; simpl; [reflexivity|].
  rewrite IH.
  destruct (negb (String.eqb line EmptyString)
            && negb (includes "NotOpenSSLWarning" line)); reflexivity.
Qed.

Lemma split_lines_no_lf (s line : string) :
  In line (split s) -> ~ In lf (list_ascii_of_string line).
Proof.
  unfold split. intros Hin. apply List.in_map_iff in Hin as (p & <- & Hp).
  rewrite list_ascii_of_string_of_list_ascii.
  pose proof (pieces_no_lf (list_ascii_of_string s) [] (fun H => H)) as Hall.
  rewrite List.Forall_forall in Hall. apply Hall, Hp.
Qed.

Lemma trim_blank (data : string) :
  forallb is_white (list_ascii_of_string data) = true ->
  trim data = EmptyString.
Proof.
  intros H. unfold trim. rewrite (trimStart_blank _ H). reflexivity.
Qed.

End Output.

(** X1: what the stdout handler logs.  Every entry is an info message
    [[watchdog] line] whose line is not empty and holds no line feed: one
    log entry per printed line, never a blank one.  A chunk of nothing but
    whitespace and line feeds (the empty chunk too) logs nothing, on stdout
    and on stderr. *)
Theorem stdout_logs_printed_lines (data : string) :
  (forall e, In e (Watchdog.on_stdout data) ->
     exists line,
       e = Plugin.log_info ("[watchdog] " ++ line) /\
       line <> EmptyString /\
       ~ In Watchdog.lf (list_ascii_of_string line)) /\
  (forallb Watchdog.is_white (list_ascii_of_string data) = true ->
   Watchdog.on_stdout data = [] /\ Watchdog.on_stderr data = []).
Proof.
  split.
  - intros e He. unfold Watchdog.on_stdout in He.
    rewrite forEach_stdout_spec in He.
    apply List.in_map_iff in He as (line & <- & Hline).
    apply List.filter_In in Hline as [Hin Hne].
    exists line. split; [reflexivity|]. split.
    + intros ->. discriminate.
    + apply (split_lines_no_lf _ _ Hin).
  - intros Hblank. unfold Watchdog.on_stdout, Watchdog.on_stderr.
    rewrite (trim_blank data Hblank). split; reflexivity.
Qed.

Lemma stdout_logs_printed_lines_witness :
  forallb Watchdog.is_white
    (list_ascii_of_string (String " " (String Watchdog.lf EmptyString))) = true /\
  Watchdog.on_stdout (String " " (String Watchdog.lf EmptyString)) = [].
Proof.
  split; [reflexivity|].
  exact (proj1 (proj2 (stdout_logs_printed_lines
                         (String " " (String Watchdog.lf EmptyString)))
                 eq_refl)).
Defined.

(** X2: what the stderr handler logs.  It logs, as errors, exactly the
    lines the stdout handler would log as info, except those that mention
    NotOpenSSLWarning: such a line is never logged, every other one is. *)
Theorem stderr_drops_openssl_warnings (data line : string) :
  In (Plugin.log_error ("[watchdog] " ++ line)) (Watchdog.on_stderr data)
  <->
  In (Plugin.log_info ("[watchdog] " ++ line)) (Watchdog.on_stdout data) /\
  Watchdog.includes "NotOpenSSLWarning" line = false.
Proof.
  unfold Watchdog.on_stderr, Watchdog.on_stdout.
  rewrite forEach_stderr_spec, forEach_stdout_spec.
  rewrite !List.in_map_iff. split.
  - intros (l & [= Hl] & Hin). apply (inj (String.append _)) in Hl. subst l.
    apply List.filter_In in Hin as [Hin Hkeep].
    apply andb_true_iff in Hkeep as [Hne Hinc].
    split; [|apply negb_true_iff, Hinc].
    exists line. split; [reflexivity|]. apply List.filter_In. split; assumption.
  - intros [(l & [= Hl] & Hin) Hinc]. apply (inj (String.append _)) in Hl.
    subst l. apply List.filter_In in Hin as [Hin Hne].
    exists line. split; [reflexivity|]. apply List.filter_In.
    split; [exact Hin|]. rewrite Hne, Hinc. reflexivity.
Qed.

Section RoundTrip.

Import Watchdog.

Lemma chars_app (a b : string) :
  list_ascii_of_string (a ++ b)
  = (list_ascii_of_string a ++ list_ascii_of_string b)%list.
Proof.
  induction a as [|c a IH]; [reflexivity|].
  change (String c a ++ b) with (String c (a ++ b)). simpl. rewrite IH.
  reflexivity.
Qed.

Lemma pieces_concat (ls : list string) :
  ls <> [] ->
  Forall (fun l => l <> EmptyString /\ ~ In lf (list_ascii_of_string l)) ls ->
  pieces [] (list_ascii_of_string (String.concat LF ls))
  = List.map list_ascii_of_string ls.
Proof.
  induction ls as [|l rest IH]; [contradiction|]. intros _ Hall.
  apply Forall_cons_1 in Hall as [[_ Hl] Hrest].
  destruct rest as [|l2 rest].
  - simpl. apply pieces_line, Hl.
  - change (String.concat LF (l :: l2 :: rest))
      with (l ++ LF ++ String.concat LF (l2 :: rest)).
    rewrite !chars_app. change (list_ascii_of_string LF) with [lf].
    change ([lf] ++ ?x)%list with (lf :: x).
    rewrite (pieces_line_lf _ _ [] Hl), IH by (try discriminate; exact Hrest).
    reflexivity.
Qed.

Lemma trim_clean (text : string) :
  is_white <$> head (list_ascii_of_string text) = Some false ->
  is_white <$> last (list_ascii_of_string text) = Some false ->
  trim (text ++ LF) = text.
Proof.
  intros Hhead Hlast. unfold trim. rewrite chars_app.
  change (list_ascii_of_string LF) with [lf].
  destruct (list_ascii_of_string text) as [|c T] eqn:E; [discriminate|].
  simpl in Hhead. injection Hhead as Hc.
  change ((c :: T) ++ [lf])%list with (c :: (T ++ [lf]))%list.
  rewrite (trimStart_head _ _ Hc).
  change (c :: (T ++ [lf]))%list with ((c :: T) ++ [lf])%list.
  destruct (last (c :: T)) as [z|] eqn:Ez; [|discriminate].
  simpl in Hlast. injection Hlast as Hz.
  apply last_Some in Ez as [T0 Ez]. rewrite Ez.
  unfold trimEnd. rewrite !rev_app_distr. simpl.
  rewrite Hz. simpl. rewrite rev_involutive.
  rewrite <- Ez, <- E. apply string_of_list_ascii_of_string.
Qed.

End RoundTrip.

(** X3: printing and logging round-trip.  When the watchdog prints lines
    that are not empty and hold no line feed, each followed by a line feed,
    and the text neither starts nor ends with whitespace, the stdout handler
    logs exactly these lines, in order, one entry each (whitespace inside
    the text, at the start of a later line say, is kept). *)
Theorem stdout_logs_what_was_printed (ls : list string) :
  Forall (fun l => l <> EmptyString /\
                   ~ In Watchdog.lf (list_ascii_of_string l)) ls ->
  Watchdog.is_white
    <$> head (list_ascii_of_string (String.concat Watchdog.LF ls)) = Some false ->
  Watchdog.is_white
    <$> last (list_ascii_of_string (String.concat Watchdog.LF ls)) = Some false ->
  Watchdog.on_stdout (String.concat Watchdog.LF ls ++ Watchdog.LF)
  = List.map (fun l => Plugin.log_info ("[watchdog] " ++ l)) ls.
Proof.
  intros Hall Hhead Hlast.
  assert (ls <> []) as Hne by (intros ->; discriminate).
  unfold Watchdog.on_stdout. rewrite (trim_clean _ Hhead Hlast).
  unfold Watchdog.split. rewrite (pieces_concat ls Hne Hall).
  rewrite List.map_map, forEach_stdout_spec.
  rewrite (List.map_ext _ (fun l => l)) by apply string_of_list_ascii_of_string.
  rewrite List.map_id. f_equal.
  clear Hhead Hlast Hne. induction Hall as [|l rest [Hl _] _ IH]; simpl;
    [reflexivity|].
  destruct (String.eqb_spec l EmptyString) as [->|_]; [contradiction|].
  simpl. rewrite IH. reflexivity.
Qed.

Lemma stdout_logs_what_was_printed_witness :
  Watchdog.on_stdout (String.concat Watchdog.LF Sample.two_lines ++ Watchdog.LF)
  = [Plugin.log_info "[watchdog] [Watchdog] tunnel up";
     Plugin.log_info "[watchdog]   server listening on 8001"].
Proof.
  apply (stdout_logs_what_was_printed Sample.two_lines).
  - repeat constructor; try discriminate; vm_compute; intuition discriminate.
  - reflexivity.
  - reflexivity.
Defined.

(** ** The child's environment and the tool's requests *)

Ltac child_key k s :=
  destruct (String.eqb_spec k s) as [->|?];
  [rewrite lookup_insert_eq; reflexivity
  |rewrite lookup_insert_ne by congruence].

Lemma childEnv_lookup (pc : Config.pluginConfig_t) (env : gmap string string)
    (k : string) :
  Plugin.childEnv pc env !! k =
  if String.eqb k "GATEWAY_TOKEN"
  then Some (Js.Str (env_or env "OPENCLAW_TOKEN" EmptyString))
  else if String.eqb k "GATEWAY_URL"
  then Some (Js.Str "http://127.0.0.1:18789/v1/chat/completions")
  else if String.eqb k "SECURITY_CHALLENGE"
  then Some (Js.or (Config.challenge (Config.pc_security pc)) (Js.Str EmptyString))
  else if String.eqb k "VOICE_API_KEY"
  then Some (Js.or (Config.apiKey (Config.pc_security pc)) (Js.Str EmptyString))
  else if String.eqb k "OPENAI_API_KEY"
  then Some (Js.or (Config.openai_apiKey (Config.pc_openai pc)) (Js.Str EmptyString))
  else if String.eqb k "TWILIO_NUMBER"
  then Some (Js.or (Config.fromNumber (Config.pc_twilio pc)) (Js.Str EmptyString))
  else if String.eqb k "TWILIO_AUTH_TOKEN"
  then Some (Js.or (Config.authToken (Config.pc_twilio pc)) (Js.Str EmptyString))
  else if String.eqb k "TWILIO_ACCOUNT_SID"
  then Some (Js.or (Config.accountSid (Config.pc_twilio pc)) (Js.Str EmptyString))
  else if String.eqb k "PORT"
  then Some (Js.Str (Js.to_string (Config.pc_port pc)))
  else Js.Str <$> env !! k.
Proof.
  unfold Plugin.childEnv.
  child_key k "GATEWAY_TOKEN". child_key k "GATEWAY_URL".
  child_key k "SECURITY_CHALLENGE". child_key k "VOICE_API_KEY".
  child_key k "OPENAI_API_KEY". child_key k "TWILIO_NUMBER".
  child_key k "TWILIO_AUTH_TOKEN". child_key k "TWILIO_ACCOUNT_SID".
  child_key k "PORT". apply lookup_fmap.
Qed.

Lemma childEnv_key (pc : Config.pluginConfig_t) (env : gmap string string) :
  Plugin.childEnv pc env !! "VOICE_API_KEY"
  = Some (Js.or (Config.apiKey (Config.pc_security pc)) (Js.Str EmptyString)).
Proof.
  rewrite childEnv_lookup. reflexivity.
Qed.

(** X4: the child's environment.  A variable of [process.env] that is not
    one of the nine the plugin sets reaches the child unchanged.  Each of
    the nine is always set, and except for GATEWAY_TOKEN its value does not
    depend on [process.env] at all: a value the parent process has for it
    (an OPENAI_API_KEY, say) is replaced, by the empty string when the
    configuration has none. *)
Theorem child_environment (pc : Config.pluginConfig_t)
    (env : gmap string string) (k : string) :
  (~ In k Watchdog.overridden ->
   Plugin.childEnv pc env !! k = Js.Str <$> env !! k) /\
  (In k Watchdog.overridden ->
   exists v,
     Plugin.childEnv pc env !! k = Some v /\
     v <> Js.Undefined /\ v <> Js.Null /\
     (k <> "GATEWAY_TOKEN" ->
      forall env', Plugin.childEnv pc env' !! k = Some v)).
Proof.
  split.
  - intros Hk. rewrite childEnv_lookup.
    unfold Watchdog.overridden in Hk. simpl in Hk.
    repeat match goal with
           | |- context [String.eqb k ?s] =>
               destruct (String.eqb_spec k s) as [->|?]; [exfalso; intuition congruence|]
           end.
    reflexivity.
  - intros Hk.
    assert (forall v, Js.or v (Js.Str EmptyString) <> Js.Undefined /\
                      Js.or v (Js.Str EmptyString) <> Js.Null) as Hor.
    { intros v. unfold Js.or. destruct (Js.truthy v) eqn:E;
        [destruct v; try discriminate E; split; discriminate
        |split; discriminate]. }
    unfold Watchdog.overridden in Hk. simpl in Hk.
    destruct Hk as [<-|[<-|[<-|[<-|[<-|[<-|[<-|[<-|[<-|[]]]]]]]]]];
      eexists; (split; [rewrite childEnv_lookup; reflexivity|]);
      (split; [try discriminate; apply Hor|]);
      (split; [try discriminate; apply Hor|]);
      try (intros _ env'; rewrite childEnv_lookup; reflexivity).
    intros H; contradiction.
Qed.

Lemma child_environment_witness :
  Plugin.childEnv (Config.pluginConfig Sample.env_with_key Sample.config_no_apiKey)
    Sample.env_with_key !! "PATH" = Some (Js.Str "/usr/bin") /\
  exists v,
    Plugin.childEnv (Config.pluginConfig Sample.env_with_key
                       Sample.config_no_apiKey)
      Sample.env_with_key !! "OPENAI_API_KEY" = Some v.
Proof.
  split.
  - rewrite (proj1 (child_environment _ Sample.env_with_key "PATH")).
    + reflexivity.
    + unfold Watchdog.overridden. simpl. intuition discriminate.
  - destruct (proj2 (child_environment
                       (Config.pluginConfig Sample.env_with_key
                          Sample.config_no_apiKey)
                       Sample.env_with_key "OPENAI_API_KEY"))
      as (v & Hv & _).
    + unfold Watchdog.overridden. simpl. tauto.
    + exists v. exact Hv.
Defined.

(** X5: the tool and the server it started agree.  In the later revision
    the port in every URL the mission tool fetches is the PORT the watchdog
    was started with; and when the configured apiKey is truthy the
    X-Voice-Key header of its requests is the VOICE_API_KEY the watchdog was
    started with.  When the apiKey is missing they differ: the header is
    undefined, the child's VOICE_API_KEY is the empty string. *)
Theorem tool_and_server_agree (pc : Config.pluginConfig_t)
    (env : gmap string string) (dirname : string) (existsSync : string -> bool)
    (p : Plugin.params) (callSid : Js.value) (child : gmap string Js.value) :
  Plugin.spawned (Plugin.onLoad pc env dirname existsSync) = Some child ->
  (exists port,
      child !! "PORT" = Some (Js.Str port) /\
      Http.url (Plugin.initiate_request pc p)
      = "http://localhost:" ++ port ++ "/call/number/"
        ++ Js.to_string (Plugin.to p) /\
      Http.url (Plugin.poll_request pc callSid)
      = "http://localhost:" ++ port ++ "/call/" ++ Js.to_string callSid
        ++ "/result") /\
  (Js.truthy (Config.apiKey (Config.pc_security pc)) = true ->
   child !! "VOICE_API_KEY"
   = Some (Js.prop "X-Voice-Key" (Http.headers (Plugin.initiate_request pc p))) /\
   child !! "VOICE_API_KEY"
   = Some (Js.prop "X-Voice-Key" (Http.headers (Plugin.poll_request pc callSid)))) /\
  (Config.apiKey (Config.pc_security pc) = Js.Undefined ->
   child !! "VOICE_API_KEY" = Some (Js.Str EmptyString) /\
   Js.prop "X-Voice-Key" (Http.headers (Plugin.initiate_request pc p))
   = Js.Undefined).
Proof.
  intros Hsp.
  assert (child = Plugin.childEnv pc env) as ->.
  { unfold Plugin.onLoad in Hsp. simpl in Hsp.
    destruct (negb (Js.truthy (Config.pc_enabled pc))); [discriminate|].
    destruct (negb (existsSync (Plugin.watchdogPath dirname)));
      [discriminate|].
    simpl in Hsp. congruence. }
  rewrite !childEnv_lookup. simpl. split; [|split].
  - eexists. split; [reflexivity|]. split; reflexivity.
  - intros Ht. unfold Js.or. rewrite Ht. split; reflexivity.
  - intros ->. split; reflexivity.
Qed.

Lemma tool_and_server_agree_witness :
  Js.truthy (Config.apiKey (Config.pc_security Example.pc0)) = true /\
  Plugin.childEnv Example.pc0 Example.env0 !! "VOICE_API_KEY"
  = Some (Js.prop "X-Voice-Key"
            (Http.headers (Plugin.initiate_request Example.pc0 Example.mission0))).
Proof.
  split; [reflexivity|].
  destruct (tool_and_server_agree Example.pc0 Example.env0 "/plugin"
              (fun _ => true) Example.mission0 (Js.Str "CA123")
              (Plugin.childEnv Example.pc0 Example.env0) eq_refl)
    as (_ & Hkey & _).
  exact (proj1 (Hkey eq_refl)).
Defined.

(** X6: the environment fallbacks are all or nothing.  The fallbacks to
    SECURITY_CHALLENGE and VOICE_API_KEY of [process.env] (and to the
    top-level apiKey) apply only when the configuration has no security
    block.  With a security block that lacks apiKey, a VOICE_API_KEY of
    [process.env] is not used: the child is started with an empty
    VOICE_API_KEY in its place.  Without a security block and without a
    top-level apiKey, the key of [process.env] is the one the child gets and
    the tool sends. *)
Theorem security_block_disables_fallbacks (env : gmap string string)
    (c : Config.config) (key : string) (p : Plugin.params) :
  env !! "VOICE_API_KEY" = Some key ->
  key <> EmptyString ->
  let pc := Config.pluginConfig env c in
  (forall s, Config.security c = Some s ->
     Config.pc_security pc = s /\
     (Config.apiKey s = Js.Undefined ->
      Plugin.childEnv pc env !! "VOICE_API_KEY" = Some (Js.Str EmptyString) /\
      Js.prop "X-Voice-Key" (Http.headers (Plugin.initiate_request pc p))
      = Js.Undefined)) /\
  (Config.security c = None ->
   Js.truthy (Config.config_apiKey c) = false ->
   Plugin.childEnv pc env !! "VOICE_API_KEY" = Some (Js.Str key) /\
   Js.prop "X-Voice-Key" (Http.headers (Plugin.initiate_request pc p))
   = Js.Str key).
Proof.
  intros Henv Hkey pc. split.
  - intros s Hs.
    assert (Config.pc_security pc = s) as Hsec
      by (subst pc; unfold Config.pluginConfig; rewrite Hs; reflexivity).
    clearbody pc. split; [exact Hsec|]. intros Hk.
    rewrite childEnv_key. simpl. rewrite Hsec, Hk. split; reflexivity.
  - intros Hs Hc.
    assert (Config.apiKey (Config.pc_security pc) = Js.Str key) as Hsec.
    { subst pc. unfold Config.pluginConfig; rewrite Hs; simpl.
      unfold Js.or. rewrite Hc. unfold env_get. rewrite Henv. reflexivity. }
    clearbody pc. rewrite childEnv_key. simpl.
    rewrite Hsec. unfold Js.or. simpl.
    destruct (String.eqb_spec key EmptyString) as [->|_]; [contradiction|].
    split; reflexivity.
Qed.

Lemma security_block_disables_fallbacks_witness :
  Sample.env_with_key !! "VOICE_API_KEY" = Some "env-key" /\
  Plugin.childEnv (Config.pluginConfig Sample.env_with_key Sample.config_no_apiKey)
    Sample.env_with_key !! "VOICE_API_KEY" = Some (Js.Str EmptyString) /\
  Plugin.childEnv (Config.pluginConfig Sample.env_with_key Sample.config_bare)
    Sample.env_with_key !! "VOICE_API_KEY" = Some (Js.Str "env-key").
Proof.
  assert (H : Sample.env_with_key !! "VOICE_API_KEY" = Some "env-key")
    by reflexivity.
  assert (Hne : "env-key" <> EmptyString) by discriminate.
  split; [exact H|]. split.
  - destruct (security_block_disables_fallbacks Sample.env_with_key
                Sample.config_no_apiKey "env-key" Example.mission0 H Hne)
      as (Hblock & _).
    destruct (Hblock _ eq_refl) as (_ & Hk).
    exact (proj1 (Hk eq_refl)).
  - destruct (security_block_disables_fallbacks Sample.env_with_key
                Sample.config_bare "env-key" Example.mission0 H Hne)
      as (_ & Hbare).
    exact (proj1 (Hbare eq_refl eq_refl)).
Defined.

(** X7: when [onLoad] starts the watchdog.  It spawns exactly when the
    configuration does not disable the plugin ([enabled] absent, null or
    truthy) and watchdog.py exists, and then once; in every other case it
    spawns nothing and says why in one log line. *)
Theorem onLoad_spawns_iff (env : gmap string string) (c : Config.config)
    (dirname : string) (existsSync : string -> bool) :
  let es := Plugin.onLoad (Config.pluginConfig env c) env dirname existsSync in
  let on := match Config.enabled c with
            | Js.Undefined | Js.Null => true
            | v => Js.truthy v
            end in
  (Plugin.spawned es
   = if on && existsSync (Plugin.watchdogPath dirname)
     then Some (Plugin.childEnv (Config.pluginConfig env c) env) else None) /\
  (on = false ->
   es = [Plugin.log_info "[advanced-voice] Plugin loaded";
         Plugin.log_info "[advanced-voice] Plugin disabled in config"]) /\
  (on = true -> existsSync (Plugin.watchdogPath dirname) = false ->
   es = [Plugin.log_info "[advanced-voice] Plugin loaded";
         Plugin.log_error "[advanced-voice] watchdog.py not found"]) /\
  (length (List.filter (fun e => match e with
                                 | Plugin.spawn _ _ _ => true
                                 | _ => false
                                 end) es) <= 1)%nat.
Proof.
  intros es on.
  assert (Js.truthy (Config.pc_enabled (Config.pluginConfig env c)) = on) as Hon.
  { subst on. simpl. destruct (Config.enabled c); reflexivity. }
  subst es. unfold Plugin.onLoad. rewrite Hon.
  destruct on; simpl;
    [destruct (existsSync (Plugin.watchdogPath dirname)); simpl|];
    repeat split; try discriminate; try reflexivity; lia.
Qed.

Lemma onLoad_spawns_iff_witness :
  Plugin.onLoad (Config.pluginConfig Example.env0 Sample.config_bare)
    Example.env0 "/plugin" (fun _ => false)
  = [Plugin.log_info "[advanced-voice] Plugin loaded";
     Plugin.log_error "[advanced-voice] watchdog.py not found"].
Proof.
  exact (proj1 (proj2 (proj2 (onLoad_spawns_iff Example.env0 Sample.config_bare
                                "/plugin" (fun _ => false))))
           eq_refl eq_refl).
Defined.

(** X8: in the first revision the configuration never reaches the server.
    Its [onLoad] reads nothing of the configuration but [enabled]: the
    child is spawned with [process.env] as it is, so its PORT (if any) is
    the one of [process.env], whatever port the configuration names and the
    tool calls. *)
Theorem first_revision_passes_no_configuration
    (pc pc' : Config.pluginConfig_t) (env : gmap string string)
    (dirname : string) (existsSync : string -> bool) :
  Js.truthy (Config.pc_enabled pc) = Js.truthy (Config.pc_enabled pc') ->
  Watchdog.onLoad_first pc env dirname existsSync
  = Watchdog.onLoad_first pc' env dirname existsSync /\
  (forall child,
      Plugin.spawned (Watchdog.onLoad_first pc env dirname existsSync)
      = Some child ->
      child = Js.Str <$> env /\
      forall k, child !! k = Js.Str <$> env !! k).
Proof.
  intros Hen. unfold Watchdog.onLoad_first. rewrite Hen. split; [reflexivity|].
  intros child.
  destruct (negb (Js.truthy (Config.pc_enabled pc'))); simpl; [discriminate|].
  destruct (negb (existsSync (Plugin.watchdogPath dirname))); simpl;
    [discriminate|].
  intros [= <-]. split; [reflexivity|]. intros k. apply lookup_fmap.
Qed.

Lemma first_revision_passes_no_configuration_witness :
  Plugin.spawned
    (Watchdog.onLoad_first
       (Config.pluginConfig Sample.env_with_key Sample.config_no_apiKey)
       Sample.env_with_key "/plugin" (fun _ => true))
  = Some (Js.Str <$> Sample.env_with_key) /\
  (Js.Str <$> Sample.env_with_key : gmap string Js.value) !! "PORT" = None.
Proof.
  split; [reflexivity|].
  destruct (first_revision_passes_no_configuration
              (Config.pluginConfig Sample.env_with_key Sample.config_no_apiKey)
              (Config.pluginConfig Sample.env_with_key Sample.config_no_apiKey)
              Sample.env_with_key "/plugin" (fun _ => true) eq_refl)
    as (_ & Hchild).
  destruct (Hchild _ eq_refl) as (_ & Hk). rewrite Hk. reflexivity.
Defined.

(** ** The tools *)

Lemma poll_loop_requests_only (fuel : nat) (pc pc' : Config.pluginConfig_t)
    (w : Plugin.world) (callSid to : Js.value) (i : nat) (now : Z) :
  Plugin.poll_request pc callSid = Plugin.poll_request pc' callSid ->
  Plugin.poll_loop fuel pc w callSid to i now
  = Plugin.poll_loop fuel pc' w callSid to i now.
Proof.
  intros Hrq. revert i now; induction fuel as [|fuel IH]; intros i now; simpl.
  - reflexivity.
  - rewrite Hrq, IH. reflexivity.
Qed.

(** X9: the mission tool reads the port and the apiKey of the
    configuration and nothing else.  Two configurations with the same port
    and apiKey give the same run against the same server, request for
    request; in particular [enabled: false], which keeps [onLoad] from
    starting the server, does not keep the tool from calling it. *)
Theorem mission_tool_reads_port_and_key (fuel : nat)
    (pc pc' : Config.pluginConfig_t) (w : Plugin.world) (p : Plugin.params) :
  Config.pc_port pc = Config.pc_port pc' ->
  Config.apiKey (Config.pc_security pc) = Config.apiKey (Config.pc_security pc') ->
  Plugin.handler fuel pc w p = Plugin.handler fuel pc' w p.
Proof.
  intros Hport Hkey.
  assert (Plugin.initiate_request pc p = Plugin.initiate_request pc' p) as Hrq
    by (unfold Plugin.initiate_request; rewrite Hport, Hkey; reflexivity).
  assert (forall callSid, Plugin.poll_request pc callSid
                          = Plugin.poll_request pc' callSid) as Hpoll
    by (intros callSid; unfold Plugin.poll_request; rewrite Hport, Hkey;
        reflexivity).
  unfold Plugin.handler. rewrite Hrq.
  destruct (Plugin.initiation w _) as [response|]; [|reflexivity].
  destruct (negb (Http.ok response)); [reflexivity|].
  destruct (Http.json response) as [callInfo|]; [|reflexivity].
  destruct (Js.get callInfo "call_sid") as [callSid|]; [|reflexivity].
  rewrite (poll_loop_requests_only fuel pc pc' w callSid _ 0 0 (Hpoll callSid)).
  reflexivity.
Qed.

Lemma mission_tool_reads_port_and_key_witness :
  Plugin.handler 60 Example.pc0 Example.w_left_message Example.mission0
  = Plugin.handler 60
      {| Config.pc_enabled := Js.Bool false;
         Config.pc_port := Config.pc_port Example.pc0;
         Config.pc_twilio := Config.pc_twilio Example.pc0;
         Config.pc_openai := Config.pc_openai Example.pc0;
         Config.pc_security := Config.pc_security Example.pc0 |}
      Example.w_left_message Example.mission0.
Proof.
  apply mission_tool_reads_port_and_key; reflexivity.
Defined.

(** X10: how the immediate-return tool fails.  In both revisions it never
    returns a failure: what it returns has success=true, and it returns
    only when the server answered ok with a JSON body other than null.  A
    rejected fetch, a non-ok answer, an ok answer whose body is not JSON or
    is null each make it throw. *)
Theorem immediate_tool_returns_or_throws
    (env : gmap string string) (pc : Config.pluginConfig_t)
    (net : Http.request -> Http.fetched)
    (a : Register.params) (b : PluginV0.params) (f : Http.fetched) :
  (net (Register.execute_request env a) = f ->
   snd (Register.execute env net a) = Register.execute_response f) /\
  (net (PluginV0.handler_request pc b) = f ->
   snd (PluginV0.handler pc net b) = PluginV0.handler_response f) /\
  PluginV0.handler_response f = Register.execute_response f /\
  (forall started,
      Register.execute_response f = Js.Return started ->
      CallStarted.success started = Js.Bool true /\
      exists response result,
        f = Http.Resolved response /\ Http.ok response = true /\
        Http.json response = Some result /\
        result <> Js.Null /\ result <> Js.Undefined) /\
  (f = Http.Rejected -> Register.execute_response f = Js.Throw Js.FetchError) /\
  (forall response,
      f = Http.Resolved response ->
      (Http.ok response = false ->
       Register.execute_response f
       = Js.Throw (Js.Error ("Voice call failed: " ++ Http.text response))) /\
      (Http.ok response = true -> Http.json response = None ->
       Register.execute_response f = Js.Throw Js.SyntaxError) /\
      (Http.ok response = true -> Http.json response = Some Js.Null ->
       Register.execute_response f = Js.Throw Js.TypeError)).
Proof.
  split; [intros <-; reflexivity|]. split; [intros <-; reflexivity|].
  split; [reflexivity|]. split; [|split].
  - intros started. unfold Register.execute_response.
    destruct f as [response|]; [|discriminate].
    destruct (Http.ok response) eqn:Hok; simpl; [|discriminate].
    destruct (Http.json response) as [result|] eqn:Hjson; [|discriminate].
    destruct result; simpl; try discriminate; intros [= <-];
      (split; [reflexivity|]); eexists _, _;
      (split; [reflexivity|]); (split; [exact Hok|]);
      (split; [exact Hjson|]); split; discriminate.
  - intros ->. reflexivity.
  - intros response ->. unfold Register.execute_response. split; [|split].
    + intros ->. reflexivity.
    + intros -> ->. reflexivity.
    + intros -> ->. reflexivity.
Qed.

Lemma immediate_tool_returns_or_throws_witness :
  snd (Register.execute Example.env0 (fun _ => Http.Rejected) Example.call0)
  = Js.Throw Js.FetchError.
Proof.
  destruct (immediate_tool_returns_or_throws Example.env0 Example.pc0
              (fun _ => Http.Rejected) Example.call0 Example.call0_v0
              Http.Rejected) as (Hexec & _ & _ & _ & Hrej & _).
  rewrite (Hexec eq_refl). exact (Hrej eq_refl).
Defined.

(** X11: the mission tool throws only when the call cannot be initiated,
    and then it has made one request and no poll.  For every fuel: either
    the initiating request was answered ok with JSON that has a call_sid to
    read, or the handler throws right after that request. *)
Theorem mission_tool_throws_only_at_initiation (fuel : nat)
    (pc : Config.pluginConfig_t) (w : Plugin.world) (p : Plugin.params) :
  (forall r e,
      Plugin.handler fuel pc w p = Some r ->
      Plugin.settled r = Js.Throw e ->
      Plugin.events r = [Plugin.fetch (Plugin.initiate_request pc p)] /\
      Plugin.elapsed r = 0 /\
      ~ exists callInfo callSid, Plugin.initiated pc w p callInfo callSid) /\
  ((~ exists callInfo callSid, Plugin.initiated pc w p callInfo callSid) ->
   exists e,
     Plugin.handler fuel pc w p
     = Some {| Plugin.events := [Plugin.fetch (Plugin.initiate_request pc p)];
               Plugin.elapsed := 0;
               Plugin.settled := Js.Throw e |}).
Proof.
  unfold Plugin.initiated, Plugin.handler.
  destruct (Plugin.initiation w _) as [response|] eqn:Hf.
  2:{ split.
      - intros r e [= <-] _. repeat split.
        intros (? & ? & ? & [=] & _).
      - intros _. eexists; reflexivity. }
  destruct (Http.ok response) eqn:Hok; simpl.
  2:{ split.
      - intros r e [= <-] _. repeat split.
        intros (? & ? & ? & [= <-] & Hok' & _). congruence.
      - intros _. eexists; reflexivity. }
  destruct (Http.json response) as [callInfo|] eqn:Hjson.
  2:{ split.
      - intros r e [= <-] _. repeat split.
        intros (? & ? & ? & [= <-] & _ & Hj & _). congruence.
      - intros _. eexists; reflexivity. }
  destruct (Js.get callInfo "call_sid") as [callSid|] eqn:Hsid.
  2:{ split.
      - intros r e [= <-] _. repeat split.
        intros (? & ? & ? & [= <-] & _ & Hj & Hs). congruence.
      - intros _. eexists; reflexivity. }
  split.
  - intros r e Hr Hset.
    destruct (Plugin.poll_loop _ _ _ _ _ _ _) as [r'|]; simpl in Hr;
      [|discriminate].
    injection Hr as <-. simpl in Hset. discriminate.
  - intros Hno. exfalso. apply Hno. exists callInfo, callSid, response.
    repeat split; assumption.
Qed.

Lemma mission_tool_throws_only_at_initiation_witness :
  exists e,
    Plugin.handler 60 Example.pc0
      {| Plugin.initiation := fun _ => Example.forbidden;
         Plugin.poll := fun _ => Example.ok_json Example.left_message;
         Plugin.timer_late := fun _ => 0%N;
         Plugin.poll_took := fun _ => 0%N |} Example.mission0
    = Some {| Plugin.events :=
                [Plugin.fetch (Plugin.initiate_request Example.pc0
                                 Example.mission0)];
              Plugin.elapsed := 0;
              Plugin.settled := Js.Throw e |}.
Proof.
  apply (proj2 (mission_tool_throws_only_at_initiation 60 Example.pc0 _
                  Example.mission0)).
  intros (callInfo & callSid & response & Hf & Hok & _).
  simpl in Hf. injection Hf as <-. discriminate Hok.
Defined.

Lemma verdict_cases (w : Plugin.world) (callSid to : Js.value) (k : nat) res :
  Plugin.verdict w callSid to k = Some res ->
  exists response result status,
    Plugin.poll w k = Http.Resolved response /\
    Http.ok response = true /\
    Http.json response = Some result /\
    Js.get result "status" = Some status /\
    (status = Js.Str "completed" /\
     MissionResult.success res = Plugin.field result "success"
     \/
     (status = Js.Str "failed" \/ status = Js.Str "ended_without_result") /\
     MissionResult.success res = Js.Bool false).
Proof.
  unfold Plugin.verdict, Plugin.poll_try.
  destruct (Plugin.poll w k) as [response|]; simpl; [|discriminate].
  destruct (Http.ok response) eqn:Hok; simpl; [|discriminate].
  destruct (Http.json response) as [result|] eqn:Hjson; simpl; [|discriminate].
  destruct (Js.get result "status") as [status|] eqn:Hst; simpl; [|discriminate].
  destruct (Js.is_str status "completed") eqn:Hc; simpl.
  - intros [= <-]. apply is_str_iff in Hc. exists response, result, status.
    repeat split; try assumption. left. split; [exact Hc|reflexivity].
  - destruct (Js.is_str status "failed") eqn:Hf; simpl.
    + intros [= <-]. apply is_str_iff in Hf. exists response, result, status.
      repeat split; try assumption. right. split; [left; exact Hf|reflexivity].
    + destruct (Js.is_str status "ended_without_result") eqn:He; simpl;
        [|discriminate].
      intros [= <-]. apply is_str_iff in He. exists response, result, status.
      repeat split; try assumption. right. split; [right; exact He|reflexivity].
Qed.

(** X12: the mission tool reports success only for a completed call.  The
    success flag of what it returns is false unless some poll was answered
    ok with status 'completed', and then it is that answer's success field:
    a timeout, a failed call or a call that ended without result is never
    reported as a success. *)
Theorem success_only_when_completed
    (pc : Config.pluginConfig_t) (w : Plugin.world) (p : Plugin.params)
    (callInfo callSid : Js.value) (fuel : nat) :
  (Plugin.enough_fuel <= fuel)%nat ->
  Plugin.initiated pc w p callInfo callSid ->
  exists r res,
    Plugin.handler fuel pc w p = Some r /\
    Plugin.settled r = Js.Return res /\
    (MissionResult.success res = Js.Bool false
     \/
     exists (m : nat) response result,
       Plugin.poll w m = Http.Resolved response /\
       Http.ok response = true /\
       Http.json response = Some result /\
       Js.get result "status" = Some (Js.Str "completed") /\
       MissionResult.success res = Plugin.field result "success").
Proof.
  intros Hfuel Hinit.
  destruct (handler_run pc w p callInfo callSid Hinit fuel Hfuel)
    as (r & res & n & Hr & Hset & _ & _ & _ & Hend).
  exists r, res. split; [exact Hr|]. split; [exact Hset|].
  destruct Hend as [(_ & _ & ->)|(m & _ & _ & Hlast)]; [left; reflexivity|].
  apply verdict_cases in Hlast
    as (response & result & status & Hpoll & Hok & Hjson & Hst & Hcase).
  destruct Hcase as [[-> Hs]|[_ Hs]]; [|left; exact Hs].
  right. exists m, response, result. repeat split; assumption.
Qed.

Lemma success_only_when_completed_witness :
  (Plugin.enough_fuel <= 60)%nat /\
  exists r res,
    Plugin.handler 60 Example.pc0 Sample.w_failed_third Example.mission0
    = Some r /\
    Plugin.settled r = Js.Return res /\
    MissionResult.success res = Js.Bool false.
Proof.
  assert (Hfuel : (Plugin.enough_fuel <= 60)%nat) by (vm_compute; lia).
  split; [exact Hfuel|].
  destruct (success_only_when_completed Example.pc0 Sample.w_failed_third
              Example.mission0 Example.callInfo0 (Js.Str "CA123") 60 Hfuel
              (initiated_example _))
    as (r & res & Hr & Hset & Hcase).
  exists r, res. split; [exact Hr|]. split; [exact Hset|].
  destruct Hcase as [Hs|(m & response & result & Hpoll & _ & Hjson & Hst & _)];
    [exact Hs|].
  exfalso. simpl in Hpoll.
  destruct m as [|[|[|m]]]; injection Hpoll as <-; simpl in Hjson;
    injection Hjson as <-; discriminate Hst.
Defined.

Lemma clock_snoc (w : Plugin.world) (i n : nat) (now : Z) :
  Plugin.clock w i (S n) now
  = Plugin.clock w i n now + Plugin.timer w (i + n)
    + Z.of_N (Plugin.poll_took w (i + n)).
Proof.
  revert i now; induction n as [|n IH]; intros i now.
  - simpl. rewrite Nat.add_0_r. reflexivity.
  - change (Plugin.clock w i (S (S n)) now)
      with (Plugin.clock w (S i) (S n)
              (now + Plugin.timer w i + Z.of_N (Plugin.poll_took w i))).
    rewrite IH. simpl. replace (i + S n)%nat with (S (i + n)) by lia.
    reflexivity.
Qed.

(** X13: how long the mission tool can block.  No round starts after the
    five minutes, so the handler returns less than one round after them:
    when every round's delay beyond its 5 seconds (timer lateness plus the
    time its poll takes) is at most [L] milliseconds, the handler returns
    before [300000 + 5000 + L] milliseconds have passed since it started
    polling. *)
Theorem mission_tool_blocks_at_most
    (pc : Config.pluginConfig_t) (w : Plugin.world) (p : Plugin.params)
    (callInfo callSid : Js.value) (fuel : nat) (L : Z) :
  (Plugin.enough_fuel <= fuel)%nat ->
  Plugin.initiated pc w p callInfo callSid ->
  (forall k : nat,
      Z.of_N (Plugin.timer_late w k) + Z.of_N (Plugin.poll_took w k) <= L) ->
  exists r,
    Plugin.handler fuel pc w p = Some r /\
    0 <= Plugin.elapsed r < 300000 + 5000 + L.
Proof.
  intros Hfuel Hinit HL.
  destruct (handler_run pc w p callInfo callSid Hinit fuel Hfuel)
    as (r & res & n & Hr & _ & _ & Hel & Hin & _).
  exists r. split; [exact Hr|]. rewrite Hel.
  pose proof (HL 0%nat) as HL0.
  destruct n as [|n]; [simpl; lia|].
  specialize (Hin n ltac:(lia)). specialize (HL n).
  rewrite clock_snoc. pose proof (clock_ge w 0 n 0) as Hge.
  unfold Plugin.timer, Plugin.MAX_WAIT_MS, Plugin.POLL_MS in *. simpl in *.
  lia.
Qed.

Lemma mission_tool_blocks_at_most_witness :
  (Plugin.enough_fuel <= 60)%nat /\
  exists r,
    Plugin.handler 60 Example.pc0 Sample.w_slow Example.mission0 = Some r /\
    0 <= Plugin.elapsed r < 300000 + 5000 + 340.
Proof.
  assert (Hfuel : (Plugin.enough_fuel <= 60)%nat) by (vm_compute; lia).
  split; [exact Hfuel|].
  apply (mission_tool_blocks_at_most Example.pc0 Sample.w_slow Example.mission0
           Example.callInfo0 (Js.Str "CA123") 60 340 Hfuel).
  - eexists. repeat split; reflexivity.
  - intros k. simpl. lia.
Defined.

(** ** The life of the child processes *)

Section Lifecycle.

Import Watchdog.

Variable rv : revision.
Variable env : gmap string string.
Variable dirname : string.

Let step := Watchdog.step rv env dirname.
Let run := Watchdog.run rv env dirname.

Lemma spawns_app (a b : list action) :
  spawns (a ++ b) = (spawns a + spawns b)%nat.
Proof.
  induction a as [|x a IH]; simpl; [reflexivity|].
  destruct x as [[]| |]; simpl; rewrite IH; reflexivity.
Qed.

Lemma start_effects_spawns (existsSync : string -> bool) :
  let es := start_effects rv env dirname existsSync in
  spawns (List.map did es)
  = match Plugin.spawned es with Some _ => 1%nat | None => 0%nat end /\
  forall pid sig d, ~ In (kill pid sig d) (List.map did es).
Proof.
  intros es. split.
  - subst es. destruct rv as [|pc|pc]; simpl;
      unfold startWatchdog, Plugin.onLoad, onLoad_first;
      try destruct (negb (Js.truthy (Config.pc_enabled pc)));
      destruct (negb (existsSync (Plugin.watchdogPath dirname)));
      reflexivity.
  - intros pid sig d Hin. apply List.in_map_iff in Hin as (e & [=] & _).
Qed.

Lemma is_killed_alter (st : state) (p pid : nat) (d : bool) :
  match alter (fun c => {| killed := killed c || d; exited := exited c |})
              p (children st) !! pid with
  | Some c => killed c
  | None => false
  end
  = if decide (p = pid)
    then match children st !! pid with
         | Some c => killed c || d
         | None => false
         end
    else is_killed st pid.
Proof.
  unfold is_killed. destruct (decide (p = pid)) as [->|Hne].
  - rewrite list_lookup_alter_eq. destruct (children st !! pid); reflexivity.
  - rewrite list_lookup_alter_ne by exact Hne. reflexivity.
Qed.

(** Which child a step signals, and when it uses SIGKILL. *)
Lemma step_kill (st : state) (i : input) (pid : nat) (sig : signal) (d : bool) :
  In (kill pid sig d) (snd (step st i)) ->
  watchdogProcess st = Some pid /\
  (sig = SIGKILL -> is_killed st pid = false).
Proof.
  unfold step, Watchdog.step. destruct i as [ex|dl|dl|p code sg]; simpl.
  - intros Hin. exfalso. exact (proj2 (start_effects_spawns ex) _ _ _ Hin).
  - destruct (watchdogProcess st) as [q|]; simpl; [|intros []].
    intros [[=]|[[= <- <- <-]|[]]]. split; [reflexivity|discriminate].
  - destruct (waiting st); simpl; [intros []|].
    destruct (watchdogProcess st) as [q|]; simpl; [|intros [[=]|[]]].
    destruct (is_killed st q) eqn:Hk; simpl; [intros [[=]|[]]|].
    intros [[= <- <- <-]|[[=]|[]]]. split; [reflexivity|intros _; exact Hk].
  - destruct (children st !! p) as [c|]; simpl; [|intros []].
    destruct (exited c); simpl; [intros []|].
    destruct (abnormal code); simpl; [intros [[=]|[]]|intros []].
Qed.

Lemma step_inv (st : state) (tr : list action) (i : input) :
  inv st tr -> inv (fst (step st i)) (tr ++ snd (step st i)).
Proof.
  intros [Hcount Hlatest Hkilled Halive].
  unfold step, Watchdog.step. destruct i as [ex|dl|dl|p code sg]; simpl.
  - destruct (start_effects_spawns ex) as [Hsp Hnokill].
    destruct (Plugin.spawned (start_effects rv env dirname ex)); simpl.
    + constructor; simpl.
      * rewrite length_app, spawns_app, Hsp, Hcount. reflexivity.
      * intros p [= <-]. rewrite length_app. simpl. lia.
      * intros pid sig Hin. apply in_app_or in Hin as [Hin|Hin];
          [|exfalso; exact (Hnokill _ _ _ Hin)].
        specialize (Hkilled _ _ Hin). unfold is_killed in *. simpl.
        destruct (children st !! pid) as [c|] eqn:E; [|discriminate].
        rewrite (lookup_app_l_Some _ _ _ _ E). exact Hkilled.
      * intros p [= <-]. eexists. split; [apply list_lookup_middle; reflexivity|].
        reflexivity.
    + constructor; simpl.
      * rewrite spawns_app, Hsp, Hcount. lia.
      * exact Hlatest.
      * intros pid sig Hin. apply in_app_or in Hin as [Hin|Hin];
          [exact (Hkilled _ _ Hin)|exfalso; exact (Hnokill _ _ _ Hin)].
      * exact Halive.
  - destruct (watchdogProcess st) as [q|] eqn:Hq; simpl.
    + destruct (Halive q eq_refl) as (c & Hc & Hex).
      constructor; simpl.
      * rewrite length_alter, spawns_app, Hcount. simpl. lia.
      * intros p [= <-]. rewrite length_alter. apply Hlatest. reflexivity.
      * intros pid sig Hin. unfold is_killed. simpl. rewrite is_killed_alter.
        apply in_app_or in Hin as [Hin|[[=]|[[= -> <- ->]|[]]]].
        -- specialize (Hkilled _ _ Hin). destruct (decide (q = pid)) as [<-|];
             [|exact Hkilled].
           unfold is_killed in Hkilled. rewrite Hc in *. rewrite Hkilled.
           reflexivity.
        -- rewrite decide_True by reflexivity. rewrite Hc. apply orb_true_r.
      * intros p [= <-]. rewrite list_lookup_alter_eq, Hc. simpl.
        eexists. split; [reflexivity|exact Hex].
    + rewrite app_nil_r. constructor; try assumption; intros p Hp; congruence.
  - destruct (waiting st) as [|n]; simpl.
    + rewrite app_nil_r. constructor; assumption.
    + destruct (watchdogProcess st) as [q|] eqn:Hq; simpl.
      * destruct (is_killed st q) eqn:Hk; simpl.
        -- constructor; simpl; try discriminate.
           ++ rewrite spawns_app, Hcount. simpl. lia.
           ++ intros pid sig Hin. apply in_app_or in Hin as [Hin|[[=]|[]]].
              exact (Hkilled _ _ Hin).
        -- destruct (Halive q eq_refl) as (c & Hc & Hex).
           constructor; simpl; try discriminate.
           ++ rewrite length_alter, spawns_app, Hcount. simpl. lia.
           ++ intros pid sig Hin. unfold is_killed. simpl.
              rewrite is_killed_alter.
              apply in_app_or in Hin as [Hin|[[= -> <- ->]|[[=]|[]]]].
              ** specialize (Hkilled _ _ Hin).
                 destruct (decide (q = pid)) as [<-|]; [|exact Hkilled].
                 congruence.
              ** rewrite decide_True by reflexivity. rewrite Hc.
                 apply orb_true_r.
      * constructor; simpl; try discriminate.
        -- rewrite spawns_app, Hcount. simpl. lia.
        -- intros pid sig Hin. apply in_app_or in Hin as [Hin|[[=]|[]]].
           exact (Hkilled _ _ Hin).
  - destruct (children st !! p) as [c|] eqn:Hc; simpl.
    + destruct (exited c) eqn:Hex; simpl.
      * rewrite app_nil_r. constructor; assumption.
      * constructor; simpl; try discriminate.
        -- rewrite length_insert, spawns_app, Hcount.
           destruct (abnormal code); simpl; lia.
        -- intros pid sig Hin.
           assert (In (kill pid sig true) tr) as Hin'.
           { apply in_app_or in Hin as [Hin|Hin]; [exact Hin|].
             destruct (abnormal code); simpl in Hin;
               [destruct Hin as [[=]|[]]|destruct Hin]. }
           specialize (Hkilled _ _ Hin'). unfold is_killed in *. simpl.
           destruct (decide (p = pid)) as [<-|Hne].
           ++ rewrite list_lookup_insert_eq by (eapply lookup_lt_Some; exact Hc).
              rewrite Hc in Hkilled. exact Hkilled.
           ++ rewrite list_lookup_insert_ne by exact Hne. exact Hkilled.
    + rewrite app_nil_r. constructor; assumption.
Qed.

Lemma run_inv (inputs : list input) (st : state) (tr : list action) :
  inv st tr -> inv (fst (run st inputs)) (tr ++ snd (run st inputs)).
Proof.
  revert st tr; induction inputs as [|i rest IH]; intros st tr Hinv.
  - simpl. rewrite app_nil_r. exact Hinv.
  - pose proof (step_inv st tr i Hinv) as Hstep.
    specialize (IH _ _ Hstep).
    unfold run, Watchdog.run in *; fold Watchdog.run in *.
    unfold step in *.
    destruct (Watchdog.step rv env dirname st i) as [st1 acts]; simpl in *.
    destruct (Watchdog.run rv env dirname st1 rest) as [st2 acts']; simpl in *.
    rewrite app_assoc. exact IH.
Qed.

Lemma initial_inv : inv initial [].
Proof.
  constructor; simpl; try discriminate; try reflexivity.
  intros pid sig [].
Qed.

Lemma run_initial_inv (inputs : list input) :
  inv (fst (run initial inputs)) (snd (run initial inputs)).
Proof.
  exact (run_inv inputs initial [] initial_inv).
Qed.

Lemma run_app (a b : list input) (st : state) :
  fst (run st (a ++ b)) = fst (run (fst (run st a)) b).
Proof.
  revert st; induction a as [|i a IH]; intros st; [reflexivity|].
  unfold run in *. simpl.
  destruct (Watchdog.step rv env dirname st i) as [st1 acts].
  specialize (IH st1).
  destruct (Watchdog.run rv env dirname st1 (a ++ b)) as [st2 acts2].
  destruct (Watchdog.run rv env dirname st1 a) as [st3 acts3].
  simpl in *. rewrite IH.
  destruct (Watchdog.run rv env dirname st3 b). reflexivity.
Qed.

Lemma step_has_exited (st : state) (i : input) (p : nat) :
  has_exited st p -> has_exited (fst (step st i)) p.
Proof.
  intros (c & Hc & Hex). unfold step, Watchdog.step, has_exited.
  destruct i as [ex|dl|dl|q code sg]; simpl.
  - destruct (Plugin.spawned _); simpl; [|eauto].
    exists c. split; [apply lookup_app_l_Some; exact Hc|exact Hex].
  - destruct (watchdogProcess st) as [q|]; simpl; [|eauto].
    destruct (decide (q = p)) as [->|Hne].
    + rewrite list_lookup_alter_eq, Hc. simpl. eauto.
    + rewrite list_lookup_alter_ne by exact Hne. eauto.
  - destruct (waiting st); simpl; [eauto|].
    destruct (watchdogProcess st) as [q|]; simpl; [|eauto].
    destruct (is_killed st q); simpl; [eauto|].
    destruct (decide (q = p)) as [->|Hne].
    + rewrite list_lookup_alter_eq, Hc. simpl. eauto.
    + rewrite list_lookup_alter_ne by exact Hne. eauto.
  - destruct (children st !! q) as [c'|] eqn:Hq; simpl; [|eauto].
    destruct (exited c') eqn:Hex'; simpl; [eauto|].
    destruct (decide (q = p)) as [->|Hne].
    + rewrite list_lookup_insert_eq by (eapply lookup_lt_Some; exact Hq). eauto.
    + rewrite list_lookup_insert_ne by exact Hne. eauto.
Qed.

Lemma run_has_exited (inputs : list input) (st : state) (p : nat) :
  has_exited st p -> has_exited (fst (run st inputs)) p.
Proof.
  revert st; induction inputs as [|i rest IH]; intros st H; [exact H|].
  pose proof (step_has_exited st i p H) as Hstep. specialize (IH _ Hstep).
  unfold run, step in *. simpl.
  destruct (Watchdog.step rv env dirname st i) as [st1 acts]; simpl in *.
  destruct (Watchdog.run rv env dirname st1 rest) as [st2 acts']; simpl in *.
  exact IH.
Qed.

Lemma exit_has_exited (st : state) (p : nat) (code sg : Js.value) :
  is_Some (children st !! p) ->
  has_exited (fst (step st (child_exit p code sg))) p.
Proof.
  intros [c Hc]. unfold step, Watchdog.step, has_exited. rewrite Hc.
  destruct (exited c) eqn:Hex; simpl; [eauto|].
  rewrite list_lookup_insert_eq by (eapply lookup_lt_Some; exact Hc). eauto.
Qed.

Lemma run_cons_fst (i : input) (rest : list input) (st : state) :
  fst (run st (i :: rest)) = fst (run (fst (step st i)) rest).
Proof.
  unfold run, step. simpl.
  destruct (Watchdog.step rv env dirname st i) as [st1 acts]; simpl.
  destruct (Watchdog.run rv env dirname st1 rest). reflexivity.
Qed.

Lemma run_exit_has_exited (before after : list input) (p : nat)
    (code sg : Js.value) :
  is_Some (children (fst (run initial before)) !! p) ->
  has_exited (fst (run initial (before ++ child_exit p code sg :: after))) p.
Proof.
  intros Hp. rewrite run_app, run_cons_fst.
  apply run_has_exited, exit_has_exited, Hp.
Qed.

End Lifecycle.

(** X14: only the watchdog spawned last is ever signalled.  In every
    revision and after any sequence of starts, stops, timers and exits, a
    step that sends a signal sends it to the child spawned last before that
    step.  A watchdog whose handle a second start has overwritten is never
    sent SIGTERM or SIGKILL: stopping the service leaves it running. *)
Theorem only_latest_watchdog_is_signalled
    (rv : Watchdog.revision) (env : gmap string string) (dirname : string)
    (inputs : list Watchdog.input) (i : Watchdog.input)
    (pid : nat) (sig : Watchdog.signal) (d : bool) :
  let past := Watchdog.run rv env dirname Watchdog.initial inputs in
  In (Watchdog.kill pid sig d) (snd (Watchdog.step rv env dirname (fst past) i)) ->
  S pid = Watchdog.spawns (snd past).
Proof.
  intros past Hin.
  destruct (run_initial_inv rv env dirname inputs)
    as [Hcount Hlatest _ _].
  apply step_kill in Hin as [Hpid _]. fold past in Hcount, Hlatest.
  rewrite <- Hcount. apply Hlatest, Hpid.
Qed.

Lemma only_latest_watchdog_is_signalled_witness :
  In (Watchdog.kill 1 Watchdog.SIGTERM true)
     (snd (Watchdog.step Watchdog.register_1_1 Example.env0 "/plugin"
             (fst (Watchdog.run Watchdog.register_1_1 Example.env0 "/plugin"
                     Watchdog.initial Sample.started_twice))
             (Watchdog.stop true))) /\
  Watchdog.spawns
    (snd (Watchdog.run Watchdog.register_1_1 Example.env0 "/plugin"
            Watchdog.initial Sample.started_twice)) = 2%nat.
Proof.
  assert (H : In (Watchdog.kill 1 Watchdog.SIGTERM true)
                (snd (Watchdog.step Watchdog.register_1_1 Example.env0 "/plugin"
                        (fst (Watchdog.run Watchdog.register_1_1 Example.env0
                                "/plugin" Watchdog.initial Sample.started_twice))
                        (Watchdog.stop true)))).
  { vm_compute. right. left. reflexivity. }
  split; [exact H|].
  symmetry.
  exact (only_latest_watchdog_is_signalled Watchdog.register_1_1 Example.env0
           "/plugin" Sample.started_twice (Watchdog.stop true) 1
           Watchdog.SIGTERM true H).
Defined.

(** X15: the force kill never follows a delivered signal.  In every
    revision and after any sequence of inputs, a step sends SIGKILL only to
    a child to which no earlier signal of the plugin was delivered: once
    [kill('SIGTERM')] has succeeded the child's [killed] flag is set and the
    step commented as forcing the kill of a child that is still alive does
    nothing, alive or not. *)
Theorem no_sigkill_after_delivered_signal
    (rv : Watchdog.revision) (env : gmap string string) (dirname : string)
    (inputs : list Watchdog.input) (i : Watchdog.input)
    (pid : nat) (d : bool) (sig : Watchdog.signal) :
  let past := Watchdog.run rv env dirname Watchdog.initial inputs in
  In (Watchdog.kill pid Watchdog.SIGKILL d)
     (snd (Watchdog.step rv env dirname (fst past) i)) ->
  ~ In (Watchdog.kill pid sig true) (snd past).
Proof.
  intros past Hin Hbefore.
  destruct (run_initial_inv rv env dirname inputs) as [_ _ Hkilled _].
  apply step_kill in Hin as [_ Hk]. fold past in Hkilled.
  rewrite (Hkilled _ _ Hbefore) in Hk. specialize (Hk eq_refl). discriminate.
Qed.

Lemma no_sigkill_after_delivered_signal_witness :
  In (Watchdog.kill 0 Watchdog.SIGKILL true)
     (snd (Watchdog.step Watchdog.register_1_1 Example.env0 "/plugin"
             (fst (Watchdog.run Watchdog.register_1_1 Example.env0 "/plugin"
                     Watchdog.initial Sample.stop_undelivered))
             (Watchdog.timer_fired true))) /\
  ~ In (Watchdog.kill 0 Watchdog.SIGTERM true)
       (snd (Watchdog.run Watchdog.register_1_1 Example.env0 "/plugin"
               Watchdog.initial Sample.stop_undelivered)).
Proof.
  assert (H : In (Watchdog.kill 0 Watchdog.SIGKILL true)
                (snd (Watchdog.step Watchdog.register_1_1 Example.env0 "/plugin"
                        (fst (Watchdog.run Watchdog.register_1_1 Example.env0
                                "/plugin" Watchdog.initial
                                Sample.stop_undelivered))
                        (Watchdog.timer_fired true)))).
  { vm_compute. left. reflexivity. }
  split; [exact H|].
  exact (no_sigkill_after_delivered_signal Watchdog.register_1_1 Example.env0
           "/plugin" Sample.stop_undelivered (Watchdog.timer_fired true) 0
           true Watchdog.SIGTERM H).
Defined.

(** X16: no signal after exit.  Once a child has emitted [exit] the plugin
    never signals it again, whatever is started, stopped or timed out
    afterwards: the [exit] handler clears the handle, and a handle is only
    ever set to a child spawned later. *)
Theorem no_signal_after_exit
    (rv : Watchdog.revision) (env : gmap string string) (dirname : string)
    (before after : list Watchdog.input) (i : Watchdog.input)
    (p : nat) (code sg : Js.value)
    (pid : nat) (sig : Watchdog.signal) (d : bool) :
  is_Some (Watchdog.children
             (fst (Watchdog.run rv env dirname Watchdog.initial before)) !! p) ->
  In (Watchdog.kill pid sig d)
     (snd (Watchdog.step rv env dirname
             (fst (Watchdog.run rv env dirname Watchdog.initial
                     (before ++ Watchdog.child_exit p code sg :: after)))
             i)) ->
  pid <> p.
Proof.
  intros Hp Hin ->.
  destruct (run_initial_inv rv env dirname
              (before ++ Watchdog.child_exit p code sg :: after))
    as [_ _ _ Halive].
  apply step_kill in Hin as [Hpid _].
  destruct (Halive _ Hpid) as (c & Hc & Hex).
  destruct (run_exit_has_exited rv env dirname before after p code sg Hp)
    as (c' & Hc' & Hex').
  congruence.
Qed.

Lemma no_signal_after_exit_witness :
  is_Some (Watchdog.children
             (fst (Watchdog.run Watchdog.register_1_1 Example.env0 "/plugin"
                     Watchdog.initial Sample.started_twice)) !! 0%nat) /\
  In (Watchdog.kill 2 Watchdog.SIGTERM true)
     (snd (Watchdog.step Watchdog.register_1_1 Example.env0 "/plugin"
             (fst (Watchdog.run Watchdog.register_1_1 Example.env0 "/plugin"
                     Watchdog.initial
                     (Sample.started_twice
                      ++ Watchdog.child_exit 0 (Js.Num 1) Js.Null
                      :: [Watchdog.start (fun _ => true)])))
             (Watchdog.stop true))) /\
  2%nat <> 0%nat.
Proof.
  assert (H1 : is_Some (Watchdog.children
                          (fst (Watchdog.run Watchdog.register_1_1 Example.env0
                                  "/plugin" Watchdog.initial
                                  Sample.started_twice)) !! 0%nat)).
  { vm_compute. eexists. reflexivity. }
  assert (H2 : In (Watchdog.kill 2 Watchdog.SIGTERM true)
     (snd (Watchdog.step Watchdog.register_1_1 Example.env0 "/plugin"
             (fst (Watchdog.run Watchdog.register_1_1 Example.env0 "/plugin"
                     Watchdog.initial
                     (Sample.started_twice
                      ++ Watchdog.child_exit 0 (Js.Num 1) Js.Null
                      :: [Watchdog.start (fun _ => true)])))
             (Watchdog.stop true)))).
  { vm_compute. right. left. reflexivity. }
  split; [exact H1|]. split; [exact H2|].
  exact (no_signal_after_exit Watchdog.register_1_1 Example.env0 "/plugin"
           Sample.started_twice [Watchdog.start (fun _ => true)]
           (Watchdog.stop true) 0 (Js.Num 1) Js.Null 2 Watchdog.SIGTERM true
           H1 H2).
Defined.

(** X17: the tool and the server of plugin 1.1.0.  The watchdog inherits
    [process.env] as it is.  When PORT is set there (and not empty) the tool
    calls the port the watchdog inherits, and when VOICE_API_KEY is set the
    tool sends the key the watchdog inherits.  When PORT is not set the
    watchdog is given none, and the tool calls port 8001. *)
Theorem register_tool_and_server_agree
    (env : gmap string string) (dirname : string) (existsSync : string -> bool)
    (a : Register.params) (child : gmap string Js.value) :
  Plugin.spawned (Watchdog.startWatchdog env dirname existsSync) = Some child ->
  (forall port,
      env !! "PORT" = Some port -> port <> EmptyString ->
      child !! "PORT" = Some (Js.Str port) /\
      Http.url (Register.execute_request env a)
      = "http://localhost:" ++ port ++ "/call/number/"
        ++ Js.to_string (Register.to a)) /\
  (env !! "PORT" = None ->
   child !! "PORT" = None /\
   Http.url (Register.execute_request env a)
   = "http://localhost:" ++ "8001" ++ "/call/number/"
     ++ Js.to_string (Register.to a)) /\
  (forall key,
      env !! "VOICE_API_KEY" = Some key ->
      child !! "VOICE_API_KEY"
      = Some (Js.prop "X-Voice-Key"
                (Http.headers (Register.execute_request env a)))).
Proof.
  intros Hsp.
  assert (child = Js.Str <$> env) as ->.
  { unfold Watchdog.startWatchdog in Hsp.
    destruct (negb (existsSync (Plugin.watchdogPath dirname)));
      simpl in Hsp; congruence. }
  unfold Register.execute_request, Register.PORT, env_or. simpl.
  split; [|split].
  - intros port Hport Hne. rewrite lookup_fmap, Hport.
    destruct (String.eqb_spec port EmptyString) as [->|_]; [contradiction|].
    split; reflexivity.
  - intros Hport. rewrite lookup_fmap, Hport. split; reflexivity.
  - intros key Hkey. rewrite lookup_fmap, Hkey. simpl.
    destruct (String.eqb_spec key EmptyString) as [->|_]; reflexivity.
Qed.

Lemma register_tool_and_server_agree_witness :
  Sample.env_with_key !! "VOICE_API_KEY" = Some "env-key" /\
  (Js.Str <$> Sample.env_with_key : gmap string Js.value) !! "VOICE_API_KEY"
  = Some (Js.prop "X-Voice-Key"
            (Http.headers (Register.execute_request Sample.env_with_key
                             Example.call0))).
Proof.
  split; [reflexivity|].
  destruct (register_tool_and_server_agree Sample.env_with_key "/plugin"
              (fun _ => true) Example.call0 (Js.Str <$> Sample.env_with_key)
              eq_refl) as (_ & _ & Hkey).
  exact (Hkey "env-key" eq_refl).
Defined.
